(** * Owner-to-tag synchronisation for a document platform

    A shallow embedding of [paperless_owner_tag_sync.py] and the proofs of
    the properties its specification states.

    Conventions of the embedding.
    - A Python [str] is a Rocq [string]; one [ascii] stands for one code
      point below 256.  On that range the regular-expression class [\d]
      is exactly the ten characters [0] to [9].
    - A Python [int] is a [Z]; a [dict] is a [gmap]; a JSON array is a
      [list].
    - The remote platform is an explicit state ([Remote]) threaded through
      every API call; a request that raises [requests.RequestException]
      leaves the platform as it was.
    - Logging and [time.sleep] influence neither results nor the platform
      and are left out. *)

From Stdlib Require Import ZArith Ascii String List Bool Lia.
From Stdlib Require Import DecimalString DecimalPos.
From stdpp Require Import base option list gmap strings.

Local Open Scope Z_scope.

(** ** Strings, regular expressions and [int()] *)

Module Py.

(** [\d] on code points below 256. *)
Definition is_digit (c : ascii) : bool :=
  ((48 <=? nat_of_ascii c) && (nat_of_ascii c <=? 57))%nat.

Definition newline : ascii := ascii_of_nat 10.
Definition slash : ascii := ascii_of_nat 47.

(** The remainder of [s] after the literal [lit], when [s] starts with it. *)
Fixpoint strip_prefix (lit s : list ascii) : option (list ascii) :=
  match lit, s with
  | [], _ => Some s
  | _ :: _, [] => None
  | a :: lit', b :: s' => if Ascii.eqb a b then strip_prefix lit' s' else None
  end.

(** The greedy [\d*]: the longest run of digits and what follows it. *)
Fixpoint span_digits (s : list ascii) : list ascii * list ascii :=
  match s with
  | [] => ([], [])
  | c :: s' =>
      if is_digit c
      then let '(ds, rest) := span_digits s' in (c :: ds, rest)
      else ([], s)
  end.

(** What follows a run of digits is not a digit. *)
Definition stops (tl : list ascii) : Prop :=
  match tl with
  | [] => True
  | c :: _ => is_digit c = false
  end.

(** [$] without [re.MULTILINE]: the end of the string, or the position
    just before a newline that is the last character. *)
Definition at_dollar (s : list ascii) : bool :=
  match s with
  | [] => true
  | [c] => Ascii.eqb c newline
  | _ => false
  end.

(** [/?$]: the greedy optional slash, then [$].  Giving the slash back
    cannot help: [$] never holds in front of a slash. *)
Definition opt_slash_dollar (s : list ascii) : bool :=
  match s with
  | c :: s' => if Ascii.eqb c slash then at_dollar s' else at_dollar s
  | [] => at_dollar s
  end.

Definition documents_literal : list ascii :=
  list_ascii_of_string "/documents/".

(** [/documents/(\d+)/?$] tried at the start of [s]; the result is group 1.
    [\d+] takes the whole run of digits: with fewer, the next character is
    a digit and [/?$] fails in front of it. *)
Definition match_documents (s : list ascii) : option (list ascii) :=
  match strip_prefix documents_literal s with
  | None => None
  | Some rest =>
      let '(ds, tl) := span_digits rest in
      match ds with
      | [] => None
      | _ :: _ => if opt_slash_dollar tl then Some ds else None
      end
  end.

(** [document_id=(\d+)] tried at the start of [s]. *)
Definition match_document_id (s : list ascii) : option (list ascii) :=
  match strip_prefix (list_ascii_of_string "document_id=") s with
  | None => None
  | Some rest =>
      match fst (span_digits rest) with
      | [] => None
      | ds => Some ds
      end
  end.

(** [re.search]: the match at the leftmost position where there is one. *)
Fixpoint re_search {A} (m : list ascii -> option A) (s : list ascii)
  : option A :=
  match m s with
  | Some g => Some g
  | None =>
      match s with
      | [] => None
      | _ :: s' => re_search m s'
      end
  end.

Definition digit_value (c : ascii) : Z := Z.of_nat (nat_of_ascii c) - 48.

Definition int_of_digits (ds : list ascii) : Z :=
  fold_left (fun acc c => 10 * acc + digit_value c) ds 0.

(** CPython refuses to convert a decimal string of more than
    [max_str_digits] digits (leading zeros counted) when that limit is on
    ([0] turns it off) and the string has more than 640 digits. *)
Definition conversion_refused (max_str_digits digits : nat) : bool :=
  ((640 <? digits) && (0 <? max_str_digits) && (max_str_digits <? digits))%nat.

(** [int(ds)] for a string of digits: [None] stands for [ValueError]. *)
Definition int (max_str_digits : nat) (ds : list ascii) : option Z :=
  if conversion_refused max_str_digits (length ds) then None
  else Some (int_of_digits ds).

End Py.

(** ** JSON values, as Python objects *)

#[local] Set Warnings "-register-all".

(** A decoded JSON value.  Numbers are integers: a fraction passes every
    test the code makes of a number the way a non-zero integer does. *)
Inductive JSON : Type :=
| JNull
| JBool (b : bool)
| JNumber (n : Z)
| JString (s : string)
| JArray (items : list JSON)
| JObject (fields : list (string * JSON)).

(** Python truthiness. *)
Definition truthy (v : JSON) : bool :=
  match v with
  | JNull => false
  | JBool b => b
  | JNumber n => negb (Z.eqb n 0)
  | JString s => negb (String.eqb s "")
  | JArray items => match items with [] => false | _ => true end
  | JObject fields => match fields with [] => false | _ => true end
  end.

(** [dict.get(key)] on a decoded JSON object: of two fields with one key
    the decoder keeps the later. *)
Fixpoint dict_get (key : string) (fields : list (string * JSON)) : JSON :=
  match fields with
  | [] => JNull
  | (k, v) :: rest =>
      if existsb (fun kv => String.eqb (fst kv) key) rest
      then dict_get key rest
      else if String.eqb k key then v else dict_get key rest
  end.

(** ** The sync client *)

(** The fields of [PaperlessSync] that the reconciliation reads. *)
Record PaperlessSync : Type := mkPaperlessSync {
  tag_prefix : string;
  owner_tag_mapping : gmap string string
}.

(** [PaperlessSync.__init__]: [tag_prefix] defaults to ["owner:"], an
    omitted or empty [owner_tag_mapping] becomes the empty dict. *)
Definition new_PaperlessSync (tag_prefix : option string)
    (owner_tag_mapping : option (gmap string string)) : PaperlessSync :=
  {| tag_prefix := default "owner:" tag_prefix;
     owner_tag_mapping := default ∅ owner_tag_mapping |}.

Definition get_owner_tag_name (self : PaperlessSync) (username : string)
  : string :=
  match owner_tag_mapping self !! username with
  | Some tag_name => tag_name
  | None => tag_prefix self +:+ username
  end.

Section Extraction.

Variable max_str_digits : nat.

(** The body of the [try] in [extract_document_id_from_url] for a [str]. *)
Definition extract_from_str (url : string) : option Z :=
  let s := list_ascii_of_string url in
  match Py.re_search Py.match_documents s with
  | Some g => Py.int max_str_digits g
  | None =>
      match Py.re_search Py.match_document_id s with
      | Some g => Py.int max_str_digits g
      | None => None
      end
  end.

(** [extract_document_id_from_url]: [re.search] raises [TypeError] for an
    argument that is not a string, and the [except] clause turns that and
    the [ValueError] of [int] into [None]. *)
Definition extract_document_id_from_url (url : JSON) : option Z :=
  match url with
  | JString s => extract_from_str s
  | _ => None
  end.

End Extraction.

(** ** The remote platform *)

Record Document : Type := mkDocument {
  document_id : Z;
  document_title : string;
  document_owner : option Z;
  document_tags : list Z
}.

Record User : Type := mkUser { user_id : Z; username : string }.

Record Tag : Type := mkTag { tag_name : string; tag_id : Z }.

(** The requests the client sends. *)
Inductive Request : Type :=
| GetUsers
| GetTags
| PostTag (name : string)
| GetDocument (id : Z)
| GetDocuments (page : nat)
| PatchDocument (id : Z) (tag_ids : list Z).

(** The platform: its three collections, the identifier of the next tag
    it creates, its page size, the fate of the coming requests ([true]: the
    request raises [RequestException]; none left: all succeed) and the
    requests sent so far, oldest first. *)
Record Remote : Type := mkRemote {
  documents : list Document;
  users : list User;
  tags : list Tag;
  next_tag_id : positive;
  page_size : nat;
  outages : list bool;
  sent : list Request
}.

Definition M (A : Type) : Type := Remote -> A * Remote.

#[local] Instance M_ret : MRet M := fun A (a : A) r => (a, r).
#[local] Instance M_bind : MBind M :=
  fun A B (k : A -> M B) (m : M A) r => let '(a, r') := m r in k a r'.

Definition gets {A} (f : Remote -> A) : M A := fun r => (f r, r).

(** Sends one request; the answer is whether it got through. *)
Definition send (q : Request) : M bool := fun r =>
  match outages r with
  | [] =>
      (true, mkRemote (documents r) (users r) (tags r) (next_tag_id r)
               (page_size r) [] (sent r ++ [q]))
  | down :: later =>
      (negb down, mkRemote (documents r) (users r) (tags r) (next_tag_id r)
                    (page_size r) later (sent r ++ [q]))
  end.

Definition find_document (id : Z) (docs : list Document) : option Document :=
  find (fun d => Z.eqb (document_id d) id) docs.

(** The document [d] with another list of tags. *)
Definition with_tags (d : Document) (tag_ids : list Z) : Document :=
  mkDocument (document_id d) (document_title d) (document_owner d) tag_ids.

(** [PATCH /api/documents/{id}/]: the tag list of the document is replaced
    by the one in the body. *)
Fixpoint patch_tags (id : Z) (tag_ids : list Z) (docs : list Document)
  : list Document :=
  match docs with
  | [] => []
  | d :: rest =>
      if Z.eqb (document_id d) id
      then with_tags d tag_ids :: rest
      else d :: patch_tags id tag_ids rest
  end.

Definition put_documents (docs : list Document) : M unit := fun r =>
  (tt, mkRemote docs (users r) (tags r) (next_tag_id r) (page_size r)
         (outages r) (sent r)).

(** [POST /api/tags/]: a name already in use is rejected; otherwise the
    tag is stored under the next identifier, which the answer carries. *)
Definition store_tag (name : string) : M (option Z) := fun r =>
  if existsb (fun t => String.eqb (tag_name t) name) (tags r)
  then (None, r)
  else (Some (Z.pos (next_tag_id r)),
        mkRemote (documents r) (users r)
          (tags r ++ [mkTag name (Z.pos (next_tag_id r))])
          (Pos.succ (next_tag_id r)) (page_size r) (outages r) (sent r)).

Definition push {A} (x : A) (pages : list (list A)) : list (list A) :=
  match pages with
  | [] => [[x]]
  | p :: ps => (x :: p) :: ps
  end.

(** The pages of a collection; [room] is what the first page still takes.
    There is always a first page, empty for the empty collection. *)
Fixpoint paginate {A} (size room : nat) (l : list A) : list (list A) :=
  match l with
  | [] => [[]]
  | x :: l' =>
      match room with
      | O => [] :: push x (paginate size (Nat.pred size) l')
      | S room' => push x (paginate size room' l')
      end
  end.

(** ** The API client *)

(** The dict a loop [for x in results: d[key(x)] = value(x)] builds. *)
Definition dict_of {K V X} `{Countable K} (key : X -> K) (value : X -> V)
    (results : list X) : gmap K V :=
  foldl (fun d x => <[key x := value x]> d) ∅ results.

Definition get_users : M (gmap Z string) :=
  ok ← send GetUsers;
  if ok : bool then gets (fun r => dict_of user_id username (users r))
  else mret ∅.

Definition get_tags : M (gmap string Z) :=
  ok ← send GetTags;
  if ok : bool then gets (fun r => dict_of tag_name tag_id (tags r))
  else mret ∅.

Definition create_tag (tag_name : string) : M (option Z) :=
  ok ← send (PostTag tag_name);
  if ok : bool then store_tag tag_name else mret None.

Definition get_document (document_id : Z) : M (option Document) :=
  ok ← send (GetDocument document_id);
  if ok : bool then gets (fun r => find_document document_id (documents r))
  else mret None.

(** The [while next_url] loop: [pages] are the pages the cursor still
    leads to, [page] the number of the next one. *)
Fixpoint get_all_documents_loop (page : nat) (pages : list (list Document))
    (documents : list Document) : M (list Document) :=
  match pages with
  | [] => mret documents
  | results :: next =>
      ok ← send (GetDocuments page);
      if ok : bool
      then get_all_documents_loop (S page) next (documents ++ results)
      else mret []
  end.

Definition get_all_documents : M (list Document) :=
  pages ← gets (fun r => paginate (page_size r) (page_size r) (documents r));
  get_all_documents_loop 1 pages [].

Definition update_document_tags (document_id : Z) (tag_ids : list Z)
  : M bool :=
  ok ← send (PatchDocument document_id tag_ids);
  if ok : bool
  then
    docs ← gets documents;
    match find_document document_id docs with
    | None => mret false
    | Some _ => _ ← put_documents (patch_tags document_id tag_ids docs);
                mret true
    end
  else mret false.

(** ** Single-document reconciliation *)

Definition sync_document_owner_tag (self : PaperlessSync) (document_id : Z)
  : M bool :=
  doc ← get_document document_id;
  match doc with
  | None => mret false
  | Some doc =>
      users ← get_users;
      tags ← get_tags;
      let owner_id := document_owner doc in
      let current_tag_ids := document_tags doc in
      (* lines 212-227, once the tag id is known *)
      let attach (owner_tag_id : Z) : M bool :=
        if bool_decide (owner_tag_id ∈ current_tag_ids) then mret true
        else
          let new_tag_ids := current_tag_ids ++ [owner_tag_id] in
          update_document_tags document_id new_tag_ids in
      match owner_id with
      | None => mret true
      | Some owner_id =>
          if Z.eqb owner_id 0 then mret true
          else
            match users !! owner_id with
            | None => mret true
            | Some username =>
                let owner_tag_name := get_owner_tag_name self username in
                match tags !! owner_tag_name with
                | Some owner_tag_id => attach owner_tag_id
                | None =>
                    match owner_tag_mapping self !! username with
                    | Some _ => mret false
                    | None =>
                        tag_id ← create_tag owner_tag_name;
                        match tag_id with
                        | None => mret false
                        | Some tag_id =>
                            if Z.eqb tag_id 0 then mret false
                            else attach tag_id
                        end
                    end
                end
            end
      end
  end.

(** ** Batch reconciliation *)

Record Stats : Type := mkStats {
  total : Z;
  processed : Z;
  succeeded : Z;
  failed : Z
}.

Definition count_processed (s : Stats) : Stats :=
  mkStats (total s) (processed s + 1) (succeeded s) (failed s).
Definition count_succeeded (s : Stats) : Stats :=
  mkStats (total s) (processed s) (succeeded s + 1) (failed s).
Definition count_failed (s : Stats) : Stats :=
  mkStats (total s) (processed s) (succeeded s) (failed s + 1).

(** One turn of the [for doc in documents] loop; [stats] and [tags] are
    the two dicts the loop updates in place. *)
Definition full_sync_step (self : PaperlessSync) (users : gmap Z string)
    (doc : Document) (stats : Stats) (tags : gmap string Z)
  : M (Stats * gmap string Z) :=
  let document_id := document_id doc in
  let owner_id := document_owner doc in
  let current_tag_ids := document_tags doc in
  let stats := count_processed stats in
  (* lines 280-297, once the tag id is known *)
  let attach (tags : gmap string Z) (owner_tag_id : Z)
    : M (Stats * gmap string Z) :=
    if bool_decide (owner_tag_id ∈ current_tag_ids)
    then mret (count_succeeded stats, tags)
    else
      let new_tag_ids := current_tag_ids ++ [owner_tag_id] in
      updated ← update_document_tags document_id new_tag_ids;
      if updated : bool then mret (count_succeeded stats, tags)
      else mret (count_failed stats, tags) in
  match owner_id with
  | None => mret (stats, tags)
  | Some owner_id =>
      if Z.eqb owner_id 0 then mret (stats, tags)
      else
        match users !! owner_id with
        | None => mret (stats, tags)
        | Some username =>
            let owner_tag_name := get_owner_tag_name self username in
            match tags !! owner_tag_name with
            | Some owner_tag_id => attach tags owner_tag_id
            | None =>
                match owner_tag_mapping self !! username with
                | Some _ => mret (count_failed stats, tags)
                | None =>
                    tag_id ← create_tag owner_tag_name;
                    match tag_id with
                    | None => mret (count_failed stats, tags)
                    | Some tag_id =>
                        if Z.eqb tag_id 0 then mret (count_failed stats, tags)
                        else attach (<[owner_tag_name := tag_id]> tags) tag_id
                    end
                end
            end
        end
  end.

Fixpoint full_sync_loop (self : PaperlessSync) (users : gmap Z string)
    (documents : list Document) (stats : Stats) (tags : gmap string Z)
  : M (Stats * gmap string Z) :=
  match documents with
  | [] => mret (stats, tags)
  | doc :: rest =>
      '(stats, tags) ← full_sync_step self users doc stats tags;
      full_sync_loop self users rest stats tags
  end.

Definition full_sync (self : PaperlessSync) : M Stats :=
  documents ← get_all_documents;
  users ← get_users;
  tags ← get_tags;
  match documents with
  | [] => mret (mkStats 0 0 0 0)
  | _ :: _ =>
      let stats := mkStats (Z.of_nat (length documents)) 0 0 0 in
      '(stats, _) ← full_sync_loop self users documents stats tags;
      mret stats
  end.

(** ** The webhook *)

(** What [request.get_json()] does: it raises (a body that is not JSON),
    or it returns the decoded body, [None] included. *)
Inductive GetJson : Type :=
| Raised (message : string)
| Decoded (data : JSON).

(** [(jsonify(body), status)]. *)
Record Response : Type := mkResponse {
  body : list (string * JSON);
  status : Z
}.

Definition type_name (v : JSON) : string :=
  match v with
  | JNull => "NoneType"
  | JBool _ => "bool"
  | JNumber _ => "int"
  | JString _ => "str"
  | JArray _ => "list"
  | JObject _ => "dict"
  end.

Section Webhook.

Variable max_str_digits : nat.

Definition document_webhook (sync_client : PaperlessSync) (request : GetJson)
  : M Response :=
  match request with
  | Raised e => mret (mkResponse [("error", JString e)] 500)
  | Decoded data =>
      if negb (truthy data)
      then mret (mkResponse [("error", JString "No JSON data received")] 400)
      else
        match data with
        | JObject fields =>
            let document_url := dict_get "url" fields in
            if negb (truthy document_url)
            then mret (mkResponse [("status", JString "ignored");
                                   ("message", JString "No URL in payload")] 200)
            else
              match extract_document_id_from_url max_str_digits document_url with
              | None =>
                  mret (mkResponse [("error", JString "Invalid document URL")] 400)
              | Some document_id =>
                  if Z.eqb document_id 0
                  then mret (mkResponse
                               [("error", JString "Invalid document URL")] 400)
                  else
                    success ← sync_document_owner_tag sync_client document_id;
                    if success : bool
                    then mret (mkResponse
                                 [("status", JString "success");
                                  ("message", JString "Document processed");
                                  ("document_id", JNumber document_id)] 200)
                    else mret (mkResponse
                                 [("status", JString "error");
                                  ("message", JString "Failed to process document");
                                  ("document_id", JNumber document_id)] 500)
              end
        | _ =>
            (* [data.get] raises AttributeError, caught by [except Exception] *)
            mret (mkResponse
                    [("error", JString ("'" +:+ type_name data +:+
                                        "' object has no attribute 'get'"))] 500)
        end
  end.

End Webhook.

(** The username of the owner the reconciliation goes by: the owner field
    is set, is not 0 and is in the users dict. *)
Definition owner_username (users : gmap Z string) (doc : Document)
  : option string :=
  match document_owner doc with
  | Some owner_id => if Z.eqb owner_id 0 then None else users !! owner_id
  | None => None
  end.

Definition user_directory (r : Remote) : gmap Z string :=
  dict_of user_id username (users r).

Definition tag_directory (r : Remote) : gmap string Z :=
  dict_of tag_name tag_id (tags r).

(** The three reads a single-document reconciliation starts with. *)
Definition reads (document_id : Z)
  : M (option Document * gmap Z string * gmap string Z) :=
  doc ← get_document document_id;
  users ← get_users;
  tags ← get_tags;
  mret (doc, users, tags).

(** No request of the coming ones is lost. *)
Definition reliable (r : Remote) : Prop :=
  Forall (fun down => down = false) (outages r).

(** Both platforms hold the same data; requests and outages apart. *)
Definition same_data (r r' : Remote) : Prop :=
  documents r' = documents r /\ users r' = users r /\ tags r' = tags r /\
  next_tag_id r' = next_tag_id r /\ page_size r' = page_size r.

Definition page_count (r : Remote) : nat :=
  length (paginate (page_size r) (page_size r) (documents r)).

(** One of the page requests of [get_all_documents] is lost. *)
Definition documents_fetch_fails (r : Remote) : bool :=
  existsb (fun down => down) (take (page_count r) (outages r)).

(** What a reconciliation may do to a document: nothing, or append the
    identifier the directory [dir] has for the tag of the owner. *)
Definition carried_over (self : PaperlessSync) (users : gmap Z string)
    (dir : gmap string Z) (d d' : Document) : Prop :=
  d' = d \/
  exists username t,
    owner_username users d = Some username /\
    dir !! get_owner_tag_name self username = Some t /\
    (t ∉ document_tags d) /\
    d' = with_tags d (document_tags d ++ [t]).

Definition additive (self : PaperlessSync) (r r' : Remote) : Prop :=
  Forall2 (carried_over self (user_directory r') (tag_directory r'))
    (documents r) (documents r').

(** ** The specification's reading of the operations *)

Module Spec.

(** The outcomes of §4.2 for one document. *)
Inductive Outcome : Type :=
| NoOwner
| MappedTagMissing
| TagCreateFailed
| AlreadyTagged
| Updated
| UpdateFailed.

(** Steps 6 and 7 of §4.2: the tag is known under the identifier [t]. *)
Definition attach (doc : Document) (tags : gmap string Z) (t : Z)
  : M (Outcome * gmap string Z) :=
  if bool_decide (t ∈ document_tags doc) then mret (AlreadyTagged, tags)
  else
    ok ← update_document_tags (document_id doc) (document_tags doc ++ [t]);
    mret ((if ok : bool then Updated else UpdateFailed), tags).

(** Steps 3 to 7 of §4.2 for a fetched document and the two directories.
    An owner field of 0 counts as no owner and a created identifier of 0
    as a failed creation, as the truth tests of the code have it. *)
Definition reconcile (self : PaperlessSync) (users : gmap Z string)
    (tags : gmap string Z) (doc : Document)
  : M (Outcome * gmap string Z) :=
  match owner_username users doc with
  | None => mret (NoOwner, tags)
  | Some username =>
      let name := get_owner_tag_name self username in
      match tags !! name with
      | Some t => attach doc tags t
      | None =>
          match owner_tag_mapping self !! username with
          | Some _ => mret (MappedTagMissing, tags)
          | None =>
              created ← create_tag name;
              match created with
              | None => mret (TagCreateFailed, tags)
              | Some t =>
                  if Z.eqb t 0 then mret (TagCreateFailed, tags)
                  else attach doc (<[name := t]> tags) t
              end
          end
      end
  end.

(** What [reconcile(document_id)] reports. *)
Definition success (o : Outcome) : bool :=
  match o with
  | NoOwner | AlreadyTagged | Updated => true
  | MappedTagMissing | TagCreateFailed | UpdateFailed => false
  end.

(** The counters of §4.3 as the sentence on counts has them. *)
Definition tally_claimed (o : Outcome) (s : Stats) : Stats :=
  match o with
  | NoOwner | AlreadyTagged | Updated => count_succeeded (count_processed s)
  | MappedTagMissing | TagCreateFailed | UpdateFailed =>
      count_failed (count_processed s)
  end.

(** The counters with the skipped documents counted as processed only. *)
Definition tally (o : Outcome) (s : Stats) : Stats :=
  match o with
  | NoOwner => count_processed s
  | AlreadyTagged | Updated => count_succeeded (count_processed s)
  | MappedTagMissing | TagCreateFailed | UpdateFailed =>
      count_failed (count_processed s)
  end.

(** The identifier extraction in the words of the specification.  A URL
    is read from its end towards its start, so these take it reversed. *)

(** An optional slash at the end. *)
Definition strip_slash (rev_url : list ascii) : list ascii :=
  match rev_url with
  | c :: before => if Ascii.eqb c Py.slash then before else rev_url
  | [] => []
  end.

(** The digits of a URL that ends in [/documents/<digits>/], the slash
    optional. *)
Definition documents_suffix (rev_url : list ascii) : option (list ascii) :=
  let '(ds, before) := Py.span_digits (strip_slash rev_url) in
  match ds with
  | [] => None
  | _ :: _ =>
      match Py.strip_prefix (rev Py.documents_literal) before with
      | Some _ => Some (rev ds)
      | None => None
      end
  end.

(** The first [document_id=<digits>] of a URL. *)
Definition document_id_parameter (url : list ascii) : option (list ascii) :=
  Py.re_search Py.match_document_id url.

Definition extract_id (max_str_digits : nat) (url : string) : option Z :=
  let s := list_ascii_of_string url in
  match documents_suffix (rev s) with
  | Some ds => Py.int max_str_digits ds
  | None =>
      match document_id_parameter s with
      | Some ds => Py.int max_str_digits ds
      | None => None
      end
  end.

(** One newline at the very end of the URL, dropped. *)
Definition chomp (rev_url : list ascii) : list ascii :=
  match rev_url with
  | c :: before => if Ascii.eqb c Py.newline then before else rev_url
  | [] => []
  end.

(** [extract_id] with a final newline tolerated by the first pattern. *)
Definition extract_id_chomped (max_str_digits : nat) (url : string)
  : option Z :=
  let s := list_ascii_of_string url in
  match documents_suffix (chomp (rev s)) with
  | Some ds => Py.int max_str_digits ds
  | None =>
      match document_id_parameter s with
      | Some ds => Py.int max_str_digits ds
      | None => None
      end
  end.

End Spec.

(** What each outcome of [Spec.reconcile] says about the run that ended
    in it: [ts] and [ts'] are the tag dict before and after, the document
    sits between [pre] and [post] in the collection. *)
Definition outcome_post (self : PaperlessSync) (users : gmap Z string)
    (ts ts' : gmap string Z) (d : Document) (pre post : list Document)
    (r r' : Remote) (o : Spec.Outcome) : Prop :=
  match o with
  | Spec.NoOwner => owner_username users d = None /\ r' = r /\ ts' = ts
  | Spec.MappedTagMissing =>
      exists u, owner_username users d = Some u /\
                is_Some (owner_tag_mapping self !! u) /\
                ts !! get_owner_tag_name self u = None /\ r' = r /\ ts' = ts
  | Spec.TagCreateFailed =>
      exists u, owner_username users d = Some u /\
                owner_tag_mapping self !! u = None /\
                ts !! get_owner_tag_name self u = None /\
                documents r' = documents r /\ tags r' = tags r /\ ts' = ts
  | Spec.AlreadyTagged =>
      exists u t, owner_username users d = Some u /\
                  ts' !! get_owner_tag_name self u = Some t /\
                  t ∈ document_tags d /\ documents r' = documents r
  | Spec.UpdateFailed =>
      exists u t, owner_username users d = Some u /\
                  ts' !! get_owner_tag_name self u = Some t /\
                  (t ∉ document_tags d) /\ documents r' = documents r
  | Spec.Updated =>
      exists u t, owner_username users d = Some u /\
                  ts' !! get_owner_tag_name self u = Some t /\
                  (t ∉ document_tags d) /\
                  documents r' = pre ++ with_tags d (document_tags d ++ [t]) :: post
  end.

(** The outcomes of the documents of a batch, in the order of the run. *)
Fixpoint outcomes (self : PaperlessSync) (users : gmap Z string)
    (documents : list Document) (tags : gmap string Z)
  : M (list Spec.Outcome) :=
  match documents with
  | [] => mret []
  | doc :: rest =>
      '(o, tags) ← Spec.reconcile self users tags doc;
      os ← outcomes self users rest tags;
      mret (o :: os)
  end.

Definition attached (o : Spec.Outcome) : bool :=
  match o with
  | Spec.AlreadyTagged | Spec.Updated => true
  | _ => false
  end.

Definition failure (o : Spec.Outcome) : bool :=
  match o with
  | Spec.MappedTagMissing | Spec.TagCreateFailed | Spec.UpdateFailed => true
  | _ => false
  end.

Definition skipped (o : Spec.Outcome) : bool :=
  match o with
  | Spec.NoOwner => true
  | _ => false
  end.

Definition how_many (p : Spec.Outcome -> bool) (os : list Spec.Outcome) : Z :=
  Z.of_nat (length (List.filter p os)).

(** The document [id] needs nothing more: [b] is what a reconciliation
    that finds the platform in this state reports. *)
Definition settled (self : PaperlessSync) (id : Z) (r : Remote) (b : bool)
  : Prop :=
  match find_document id (documents r) with
  | None => b = false
  | Some d =>
      match owner_username (user_directory r) d with
      | None => b = true
      | Some u =>
          match tag_directory r !! get_owner_tag_name self u with
          | Some t => t ∈ document_tags d /\ b = true
          | None => is_Some (owner_tag_mapping self !! u) /\ b = false
          end
      end
  end.

(** The answers of the webhook. *)
Definition bad_request (message : string) : Response :=
  mkResponse [("error"%string, JString message)] 400.

Definition ignored_response : Response :=
  mkResponse [("status"%string, JString "ignored");
              ("message"%string, JString "No URL in payload")] 200.

Definition processed_response (document_id : Z) (success : bool) : Response :=
  if success
  then mkResponse [("status"%string, JString "success");
                   ("message"%string, JString "Document processed");
                   ("document_id"%string, JNumber document_id)] 200
  else mkResponse [("status"%string, JString "error");
                   ("message"%string, JString "Failed to process document");
                   ("document_id"%string, JNumber document_id)] 500.

(** ** Further parts of the program *)

Module Str.

(** The list [l] without the characters [c] it starts with. *)
Fixpoint lstrip (c : ascii) (l : list ascii) : list ascii :=
  match l with
  | a :: l' => if Ascii.eqb a c then lstrip c l' else l
  | [] => []
  end.

(** [s.rstrip(c)] for a one-character [c]. *)
Definition rstrip (c : ascii) (s : string) : string :=
  string_of_list_ascii (rev (lstrip c (rev (list_ascii_of_string s)))).

(** [str(z)], which is what an f-string makes of an [int]. *)
Definition of_int (z : Z) : string := NilZero.string_of_int (Z.to_int z).

(** The number a string of decimal digits stands for, read from the left
    with [acc] for the digits read so far. *)
Fixpoint uint_value (d : Decimal.uint) (acc : Z) : Z :=
  match d with
  | Decimal.Nil => acc
  | Decimal.D0 l => uint_value l (10 * acc)
  | Decimal.D1 l => uint_value l (10 * acc + 1)
  | Decimal.D2 l => uint_value l (10 * acc + 2)
  | Decimal.D3 l => uint_value l (10 * acc + 3)
  | Decimal.D4 l => uint_value l (10 * acc + 4)
  | Decimal.D5 l => uint_value l (10 * acc + 5)
  | Decimal.D6 l => uint_value l (10 * acc + 6)
  | Decimal.D7 l => uint_value l (10 * acc + 7)
  | Decimal.D8 l => uint_value l (10 * acc + 8)
  | Decimal.D9 l => uint_value l (10 * acc + 9)
  end.

End Str.

(** [self.base_url] as [__init__] keeps it. *)
Definition base_url_of (base_url : string) : string :=
  Str.rstrip Py.slash base_url.

(** The URL [get_document] and [update_document_tags] send their request
    to: [f'{self.base_url}/api/documents/{document_id}/']. *)
Definition api_document_url (base_url : string) (document_id : Z) : string :=
  base_url_of base_url +:+ "/api/documents/" +:+ Str.of_int document_id +:+ "/".

(** ** The mapping file *)





(** ** What a run leaves of the platform, and what it sends *)

(** A document with its tag list left out. *)
Definition without_tags (d : Document) : Z * string * option Z :=
  (document_id d, document_title d, document_owner d).

(** The requests that change the platform. *)
Definition is_post (q : Request) : bool :=
  match q with
  | PostTag _ => true
  | _ => false
  end.

Definition is_patch (q : Request) : bool :=
  match q with
  | PatchDocument _ _ => true
  | _ => false
  end.

Definition is_write (q : Request) : bool := is_post q || is_patch q.

(** The usernames of the platform that have no entry in the mapping. *)
Definition unmapped_user (self : PaperlessSync) (r : Remote) (u : string)
  : Prop :=
  u ∈ map username (users r) /\ owner_tag_mapping self !! u = None.

(** No name the mapping gives is the name the prefix gives to a user of
    the platform without an entry. *)
Definition collision_free (self : PaperlessSync) (r : Remote) : Prop :=
  forall u n v,
    owner_tag_mapping self !! u = Some n ->
    unmapped_user self r v ->
    n <> tag_prefix self +:+ v.

(** The document [d] needs nothing more from a batch that goes by the
    users [users] and the tags [tags]. *)
Definition settled_doc (self : PaperlessSync) (users : gmap Z string)
    (tags : gmap string Z) (d : Document) : Prop :=
  match owner_username users d with
  | None => True
  | Some u =>
      match tags !! get_owner_tag_name self u with
      | Some t => t ∈ document_tags d
      | None => is_Some (owner_tag_mapping self !! u)
      end
  end.

(** What a turn of the loop counts for such a document. *)
Definition settled_tally (self : PaperlessSync) (users : gmap Z string)
    (tags : gmap string Z) (d : Document) (s : Stats) : Stats :=
  match owner_username users d with
  | None => count_processed s
  | Some u =>
      match tags !! get_owner_tag_name self u with
      | Some _ => count_succeeded (count_processed s)
      | None => count_failed (count_processed s)
      end
  end.

(** One run of [sync_document_owner_tag] after the other, for the
    documents [ids]; the results in the order of the runs. *)
Fixpoint sync_each (self : PaperlessSync) (ids : list Z) : M (list bool) :=
  match ids with
  | [] => mret []
  | id :: rest =>
      ok ← sync_document_owner_tag self id;
      oks ← sync_each self rest;
      mret (ok :: oks)
  end.

(** ** A small platform for the scenarios of the specification *)

Module Demo.

(** Jane's tag is mapped by hand, Bob's follows the prefix. *)
Definition client : PaperlessSync :=
  new_PaperlessSync None
    (Some {[ "jane"%string := "Jane-Documents"%string ]}).

(** Document 10 is Jane's, 11 is Bob's, 12 has no owner; neither owner
    tag exists yet. *)
Definition platform (outages : list bool) : Remote :=
  mkRemote [mkDocument 10 "letter" (Some 2) [4];
            mkDocument 11 "invoice" (Some 3) [];
            mkDocument 12 "scan" None [4]]
           [mkUser 2 "jane"; mkUser 3 "bob"]
           [mkTag "inbox" 4] 7 25 outages [].

(** A platform with the one document that nobody owns. *)
Definition unowned (outages : list bool) : Remote :=
  mkRemote [mkDocument 12 "scan" None [4]]
           [mkUser 2 "jane"; mkUser 3 "bob"]
           [mkTag "inbox" 4] 7 25 outages [].

(** Bob's document with Bob's tag on it. *)
Definition tagged (outages : list bool) : Remote :=
  mkRemote [mkDocument 11 "invoice" (Some 3) [7]]
           [mkUser 2 "jane"; mkUser 3 "bob"]
           [mkTag "inbox" 4; mkTag "owner:bob" 7] 8 25 outages [].

(** A URL whose identifier has 4301 digits. *)
Definition long_url : string :=
  "https://host/documents/" +:+ string_of_list_ascii (repeat "1"%char 4301).

Definition newline_url : string :=
  "https://host/documents/5" +:+ String Py.newline "".

End Demo.

(** ** Examples *)

Example extract_55 :
  extract_document_id_from_url 4300 (JString "https://host/documents/55/") = Some 55.
Proof. reflexivity. Qed.

Example extract_77 :
  extract_document_id_from_url 4300 (JString "https://host/api?document_id=77") = Some 77.
Proof. reflexivity. Qed.

Example extract_other :
  extract_document_id_from_url 4300 (JString "https://host/other") = None.
Proof. reflexivity. Qed.

Example extract_refused :
  extract_document_id_from_url 4300 (JString Demo.long_url) = None /\
  is_Some (extract_document_id_from_url 0 (JString Demo.long_url)).
Proof. split; [vm_compute; reflexivity|]. vm_compute. eauto. Qed.

(** The scenarios of the specification: Jane's mapped tag is missing,
    Bob's tag is created and attached, the fetch of the documents fails. *)
Example scenario_mapped_tag_missing :
  let '(ok, r') := sync_document_owner_tag Demo.client 10 (Demo.platform []) in
  ok = false /\ tags r' = tags (Demo.platform []) /\
  documents r' = documents (Demo.platform []).
Proof. repeat split. Qed.

Example scenario_tag_created :
  let '(ok, r') := sync_document_owner_tag Demo.client 11 (Demo.platform []) in
  ok = true /\
  tags r' = [mkTag "inbox" 4; mkTag "owner:bob" 7] /\
  find_document 11 (documents r') = Some (mkDocument 11 "invoice" (Some 3) [7]) /\
  sent r' = [GetDocument 11; GetUsers; GetTags; PostTag "owner:bob";
             PatchDocument 11 [7]].
Proof. repeat split. Qed.

Example scenario_documents_fetch_fails :
  fst (full_sync Demo.client (Demo.platform [true])) = mkStats 0 0 0 0.
Proof. reflexivity. Qed.

(** ** Regular expressions *)

Section Regex.

Import Py.

Lemma strip_prefix_inv lit s rest :
  strip_prefix lit s = Some rest -> s = lit ++ rest.
Proof.
  revert s. induction lit as [|a lit IH]; intros [|b s]; simpl; try congruence.
  destruct (Ascii.eqb_spec a b) as [->|]; [|discriminate].
  intros H. f_equal. auto.
Qed.

Lemma strip_prefix_app lit rest : strip_prefix lit (lit ++ rest) = Some rest.
Proof.
  induction lit as [|a lit IH]; simpl; [reflexivity|].
  rewrite Ascii.eqb_refl. exact IH.
Qed.

Lemma span_digits_inv s ds tl :
  span_digits s = (ds, tl) ->
  s = ds ++ tl /\ forallb is_digit ds = true /\ stops tl.
Proof.
  revert ds tl. induction s as [|c s IH]; simpl; intros ds tl H.
  - inversion H. repeat split.
  - destruct (is_digit c) eqn:Hc.
    + destruct (span_digits s) as [ds' tl'] eqn:Hs. inversion H; subst.
      destruct (IH _ _ eq_refl) as (-> & Hd & Ht).
      simpl. rewrite Hc, Hd. repeat split. exact Ht.
    + inversion H; subst. simpl. repeat split. exact Hc.
Qed.

Lemma span_digits_app ds tl :
  forallb is_digit ds = true -> stops tl -> span_digits (ds ++ tl) = (ds, tl).
Proof.
  intros Hd Ht. induction ds as [|c ds IH]; simpl in *.
  - destruct tl as [|c tl]; simpl in *; [reflexivity|]. now rewrite Ht.
  - apply andb_true_iff in Hd as [Hc Hd]. rewrite Hc, (IH Hd). reflexivity.
Qed.

Lemma re_search_found {A} (m : list ascii -> option A) s g :
  re_search m s = Some g -> exists p s', s = p ++ s' /\ m s' = Some g.
Proof.
  induction s as [|c s IH]; simpl.
  - destruct (m []) eqn:E; [|discriminate].
    intros [= <-]. exists [], []. auto.
  - destruct (m (c :: s)) eqn:E.
    + intros [= <-]. exists [], (c :: s). auto.
    + intros H. destruct (IH H) as (p & s' & -> & Hm).
      exists (c :: p), s'. auto.
Qed.

Lemma re_search_some {A} (m : list ascii -> option A) p s g :
  m s = Some g -> exists g', re_search m (p ++ s) = Some g'.
Proof.
  intros Hm. induction p as [|c p IH]; simpl.
  - destruct s; simpl; rewrite Hm; eauto.
  - destruct (m (c :: p ++ s)); eauto.
Qed.

Lemma opt_slash_dollar_cases tl :
  opt_slash_dollar tl = true ->
  tl = [] \/ tl = [slash] \/ tl = [newline] \/ tl = [slash; newline].
Proof.
  destruct tl as [|c [|c' [|c'' tl]]]; simpl; auto.
  - destruct (Ascii.eqb_spec c slash) as [->|]; auto.
    destruct (Ascii.eqb_spec c newline) as [->|]; auto. discriminate.
  - destruct (Ascii.eqb_spec c slash) as [->|]; [|discriminate].
    destruct (Ascii.eqb_spec c' newline) as [->|]; auto. discriminate.
  - destruct (Ascii.eqb c slash); discriminate.
Qed.

Lemma opt_slash_dollar_stops tl : opt_slash_dollar tl = true -> stops tl.
Proof.
  intros H. destruct (opt_slash_dollar_cases _ H) as [->|[->|[->| ->]]];
    reflexivity.
Qed.

Lemma digit_not_sep c :
  is_digit c = true -> Ascii.eqb c newline = false /\ Ascii.eqb c slash = false.
Proof.
  intros H. split.
  - destruct (Ascii.eqb_spec c newline) as [->|]; [discriminate H|reflexivity].
  - destruct (Ascii.eqb_spec c slash) as [->|]; [discriminate H|reflexivity].
Qed.

Lemma match_documents_inv s ds :
  match_documents s = Some ds ->
  exists tl, s = documents_literal ++ ds ++ tl /\ ds <> [] /\
             forallb is_digit ds = true /\ opt_slash_dollar tl = true.
Proof.
  unfold match_documents.
  destruct (strip_prefix documents_literal s) as [rest|] eqn:Hp; [|discriminate].
  apply strip_prefix_inv in Hp as ->.
  destruct (span_digits rest) as [run tl] eqn:Hs.
  apply span_digits_inv in Hs as (-> & Hd & _).
  destruct run as [|c run]; [discriminate|].
  destruct (opt_slash_dollar tl) eqn:Ht; [|discriminate].
  intros [= <-]. exists tl. repeat split; auto; discriminate.
Qed.

Lemma match_documents_intro ds tl :
  ds <> [] -> forallb is_digit ds = true -> opt_slash_dollar tl = true ->
  match_documents (documents_literal ++ ds ++ tl) = Some ds.
Proof.
  intros Hne Hd Ht. unfold match_documents.
  rewrite strip_prefix_app, (span_digits_app _ _ Hd (opt_slash_dollar_stops _ Ht)).
  destruct ds; [congruence|]. now rewrite Ht.
Qed.

(** Read from the end: a run of digits in front of the reversed literal. *)
Lemma documents_suffix_run run before :
  run <> [] -> forallb is_digit run = true ->
  let l := run ++ rev documents_literal ++ before in
  Spec.documents_suffix l = Some (rev run) /\ Spec.chomp l = l /\
  Spec.documents_suffix (slash :: l) = Some (rev run).
Proof.
  intros Hne Hd l. destruct run as [|c run]; [congruence|].
  pose proof Hd as Hd'. simpl in Hd'. apply andb_true_iff in Hd' as [Hc _].
  destruct (digit_not_sep _ Hc) as [Hn Hs].
  assert (Hstrip : Spec.strip_slash l = l) by (subst l; simpl; now rewrite Hs).
  assert (Hsuf : Spec.documents_suffix l = Some (rev (c :: run))).
  { unfold Spec.documents_suffix. rewrite Hstrip. subst l.
    rewrite (span_digits_app _ _ Hd) by reflexivity.
    now rewrite strip_prefix_app. }
  split; [exact Hsuf|]. split; [subst l; simpl; now rewrite Hn|].
  rewrite <- Hsuf. unfold Spec.documents_suffix. rewrite Hstrip. reflexivity.
Qed.

Lemma documents_suffix_app p ds tl :
  ds <> [] -> forallb is_digit ds = true -> opt_slash_dollar tl = true ->
  Spec.documents_suffix (Spec.chomp (rev (p ++ documents_literal ++ ds ++ tl)))
  = Some ds.
Proof.
  intros Hne Hd Ht.
  assert (Hr : rev ds <> []).
  { intros E. apply Hne. now rewrite <- (rev_involutive ds), E. }
  assert (Hrd : forallb is_digit (rev ds) = true).
  { rewrite forallb_forall in *. intros c Hc. apply Hd. now apply in_rev. }
  destruct (documents_suffix_run (rev ds) (rev p) Hr Hrd) as (Hsuf & Hchomp & Hsl).
  rewrite rev_involutive in Hsuf, Hsl.
  rewrite !rev_app_distr, <- !app_assoc.
  set (l := rev ds ++ rev documents_literal ++ rev p) in *.
  destruct (opt_slash_dollar_cases _ Ht) as [->|[->|[->| ->]]].
  - change (rev [] ++ l) with l. now rewrite Hchomp.
  - change (Spec.chomp (rev [slash] ++ l)) with (slash :: l). exact Hsl.
  - change (Spec.chomp (rev [newline] ++ l)) with l. exact Hsuf.
  - change (Spec.chomp (rev [slash; newline] ++ l)) with (slash :: l). exact Hsl.
Qed.

Lemma documents_suffix_inv r ds :
  Spec.documents_suffix (Spec.chomp r) = Some ds ->
  exists tl before,
    r = rev tl ++ rev ds ++ rev documents_literal ++ before /\ ds <> [] /\
    forallb is_digit ds = true /\ opt_slash_dollar tl = true.
Proof.
  unfold Spec.documents_suffix.
  destruct (span_digits (Spec.strip_slash (Spec.chomp r))) as [run before] eqn:Hs.
  apply span_digits_inv in Hs as (Hl & Hd & _).
  destruct run as [|c run]; [discriminate|].
  destruct (strip_prefix _ before) as [x|] eqn:Hp; [|discriminate].
  apply strip_prefix_inv in Hp. subst before.
  intros E. assert (ds = rev (c :: run)) as -> by congruence. clear E.
  rewrite rev_involutive.
  assert (Hne : rev (c :: run) <> []).
  { intros E. apply (f_equal (@rev ascii)) in E.
    rewrite rev_involutive in E. discriminate. }
  assert (Hrd : forallb is_digit (rev (c :: run)) = true).
  { rewrite forallb_forall in *. intros a Ha. apply Hd. now apply in_rev. }
  set (l := (c :: run) ++ rev documents_literal ++ x) in *.
  assert (Hr : exists tl, r = rev tl ++ l /\ opt_slash_dollar tl = true).
  { destruct r as [|a r]; [discriminate Hl|]. simpl in Hl.
    destruct (Ascii.eqb_spec a newline) as [->|Hn].
    - destruct r as [|b r]; [discriminate Hl|]. simpl in Hl.
      destruct (Ascii.eqb_spec b slash) as [->|Hb].
      + exists [slash; newline]. now rewrite Hl.
      + exists [newline]. now rewrite Hl.
    - simpl in Hl. destruct (Ascii.eqb_spec a slash) as [->|Hb].
      + exists [slash]. now rewrite Hl.
      + exists []. now rewrite Hl. }
  destruct Hr as (tl & -> & Ht). exists tl, x. auto.
Qed.

(** The leftmost match of [/documents/(\d+)/?$] is the suffix the
    specification describes, a final newline set aside. *)
Lemma search_documents_suffix s :
  re_search match_documents s = Spec.documents_suffix (Spec.chomp (rev s)).
Proof.
  destruct (re_search match_documents s) as [g|] eqn:E.
  - apply re_search_found in E as (p & s' & -> & Hm).
    apply match_documents_inv in Hm as (tl & -> & Hne & Hd & Ht).
    symmetry. now apply documents_suffix_app.
  - destruct (Spec.documents_suffix (Spec.chomp (rev s))) as [ds|] eqn:F;
      [|reflexivity].
    apply documents_suffix_inv in F as (tl & before & Hr & Hne & Hd & Ht).
    apply (f_equal (@rev ascii)) in Hr.
    rewrite rev_involutive, !rev_app_distr, !rev_involutive, <- !app_assoc in Hr.
    destruct (re_search_some match_documents (rev before) _ _
                (match_documents_intro ds tl Hne Hd Ht)) as [g' Hg].
    rewrite <- Hr in Hg. congruence.
Qed.

Lemma list_ascii_of_string_app a b :
  list_ascii_of_string (a +:+ b)
  = list_ascii_of_string a ++ list_ascii_of_string b.
Proof. induction a as [|c a IH]; simpl; [reflexivity|now rewrite IH]. Qed.

End Regex.

(** ** The API client *)

Section Client.

Lemma dict_of_snoc {K V X} `{Countable K} (key : X -> K) (value : X -> V)
    (l : list X) (x : X) :
  dict_of key value (l ++ [x]) = <[key x := value x]> (dict_of key value l).
Proof. unfold dict_of. now rewrite foldl_app. Qed.

Lemma tag_directory_None (l : list Tag) (name : string) :
  dict_of tag_name tag_id l !! name = None <->
  existsb (fun t => String.eqb (tag_name t) name) l = false.
Proof.
  induction l as [|t l IH] using rev_ind.
  - split; [reflexivity|]. intros _. apply lookup_empty.
  - rewrite dict_of_snoc, existsb_app. simpl. rewrite orb_false_r.
    destruct (String.eqb_spec (tag_name t) name) as [->|Hne].
    + rewrite lookup_insert_eq, orb_true_r. split; discriminate.
    + rewrite lookup_insert_ne, orb_false_r by exact Hne. exact IH.
Qed.

Lemma same_data_refl r : same_data r r.
Proof. repeat split. Qed.

Lemma same_data_trans r1 r2 r3 :
  same_data r1 r2 -> same_data r2 r3 -> same_data r1 r3.
Proof.
  intros (?&?&?&?&?) (?&?&?&?&?). repeat split; congruence.
Qed.

Lemma send_spec q r ok r' :
  send q r = (ok, r') ->
  same_data r r' /\ sent r' = sent r ++ [q] /\
  outages r' = tail (outages r) /\ ok = negb (hd false (outages r)).
Proof.
  unfold send. destruct (outages r) as [|down later] eqn:E;
    intros [= <- <-]; simpl; rewrite ?E; repeat split.
Qed.

Lemma send_reliable q r ok r' :
  reliable r -> send q r = (ok, r') -> ok = true /\ reliable r'.
Proof.
  unfold reliable. intros Hr Hs.
  apply send_spec in Hs as (_ & _ & Ho & ->). rewrite Ho.
  destruct (outages r) as [|down later]; simpl; [auto|].
  inversion Hr; subst. auto.
Qed.

Lemma get_users_spec r us r' :
  get_users r = (us, r') ->
  same_data r r' /\ sent r' = sent r ++ [GetUsers] /\
  (us = ∅ \/ us = user_directory r) /\
  (reliable r -> us = user_directory r /\ reliable r').
Proof.
  unfold get_users, mbind, M_bind.
  destruct (send GetUsers r) as [ok r1] eqn:Hs.
  pose proof (send_spec _ _ _ _ Hs) as (Hd & Hsent & _).
  assert (Hu : users r1 = users r) by apply Hd.
  destruct ok; intros [= <- <-]; unfold user_directory; rewrite ?Hu;
    (split; [exact Hd|]; split; [exact Hsent|]; split; [auto|]);
    intros Hr; destruct (send_reliable _ _ _ _ Hr Hs) as [? ?];
    [auto|discriminate].
Qed.

Lemma get_tags_spec r ts r' :
  get_tags r = (ts, r') ->
  same_data r r' /\ sent r' = sent r ++ [GetTags] /\
  (ts = ∅ \/ ts = tag_directory r) /\
  (reliable r -> ts = tag_directory r /\ reliable r').
Proof.
  unfold get_tags, mbind, M_bind.
  destruct (send GetTags r) as [ok r1] eqn:Hs.
  pose proof (send_spec _ _ _ _ Hs) as (Hd & Hsent & _).
  assert (Hu : tags r1 = tags r) by apply Hd.
  destruct ok; intros [= <- <-]; unfold tag_directory; rewrite ?Hu;
    (split; [exact Hd|]; split; [exact Hsent|]; split; [auto|]);
    intros Hr; destruct (send_reliable _ _ _ _ Hr Hs) as [? ?];
    [auto|discriminate].
Qed.

Lemma get_document_spec id r o r' :
  get_document id r = (o, r') ->
  same_data r r' /\ sent r' = sent r ++ [GetDocument id] /\
  (o = None \/ o = find_document id (documents r)) /\
  (reliable r -> o = find_document id (documents r) /\ reliable r').
Proof.
  unfold get_document, mbind, M_bind.
  destruct (send (GetDocument id) r) as [ok r1] eqn:Hs.
  pose proof (send_spec _ _ _ _ Hs) as (Hd & Hsent & _).
  assert (Hu : documents r1 = documents r) by apply Hd.
  destruct ok; intros [= <- <-]; rewrite ?Hu;
    (split; [exact Hd|]; split; [exact Hsent|]; split; [auto|]);
    intros Hr; destruct (send_reliable _ _ _ _ Hr Hs) as [? ?];
    [auto|discriminate].
Qed.

Lemma create_tag_spec name r o r' :
  create_tag name r = (o, r') ->
  documents r' = documents r /\ users r' = users r /\
  sent r' = sent r ++ [PostTag name] /\
  ((o = None /\ tags r' = tags r) \/
   (exists i, o = Some (Z.pos i) /\ tag_directory r !! name = None /\
              tags r' = tags r ++ [mkTag name (Z.pos i)] /\
              tag_directory r' = <[name := Z.pos i]> (tag_directory r))) /\
  (reliable r -> reliable r' /\ (tag_directory r !! name = None -> o <> None)).
Proof.
  unfold create_tag, mbind, M_bind.
  destruct (send (PostTag name) r) as [ok r1] eqn:Hs.
  pose proof (send_spec _ _ _ _ Hs) as ((Hdoc & Husr & Htag & _) & Hsent & _).
  assert (Hdir : tag_directory r1 = tag_directory r)
    by (unfold tag_directory; now rewrite Htag).
  assert (Hrel : reliable r -> ok = true /\ reliable r1)
    by (intros Hr; exact (send_reliable _ _ _ _ Hr Hs)).
  destruct ok.
  - unfold store_tag.
    destruct (existsb _ (tags r1)) eqn:Hex; intros [= <- <-]; simpl;
      (split; [exact Hdoc|]; split; [exact Husr|]; split; [exact Hsent|]).
    + split; [left; auto|]. intros Hr. split; [apply (Hrel Hr)|].
      intros Hnone. rewrite <- Hdir in Hnone.
      apply tag_directory_None in Hnone. congruence.
    + apply tag_directory_None in Hex. rewrite <- Hdir, <- Htag.
      split.
      * right. exists (next_tag_id r1).
        split; [reflexivity|]. split; [exact Hex|]. split; [reflexivity|].
        unfold tag_directory. simpl. now rewrite dict_of_snoc.
      * intros Hr. split; [|discriminate]. apply (Hrel Hr).
  - intros [= <- <-].
    split; [exact Hdoc|]. split; [exact Husr|]. split; [exact Hsent|].
    split; [left; auto|]. intros Hr. destruct (Hrel Hr). discriminate.
Qed.

Lemma update_document_tags_spec id l r ok r' :
  update_document_tags id l r = (ok, r') ->
  users r' = users r /\ tags r' = tags r /\
  sent r' = sent r ++ [PatchDocument id l] /\
  ((ok = false /\ documents r' = documents r) \/
   (ok = true /\ is_Some (find_document id (documents r)) /\
    documents r' = patch_tags id l (documents r))) /\
  (reliable r ->
   reliable r' /\ (is_Some (find_document id (documents r)) -> ok = true)).
Proof.
  unfold update_document_tags, mbind, M_bind, gets.
  destruct (send (PatchDocument id l) r) as [sent_ok r1] eqn:Hs.
  pose proof (send_spec _ _ _ _ Hs) as ((Hdoc & Husr & Htag & _) & Hsent & _).
  assert (Hrel : reliable r -> sent_ok = true /\ reliable r1)
    by (intros Hr; exact (send_reliable _ _ _ _ Hr Hs)).
  destruct sent_ok.
  - destruct (find_document id (documents r1)) as [d|] eqn:Hf;
      intros [= <- <-]; simpl; rewrite Hdoc in Hf;
      (split; [exact Husr|]; split; [exact Htag|]; split; [exact Hsent|]).
    + split.
      * right. rewrite Hf, <- Hdoc. split; [reflexivity|]. split; eauto.
      * intros Hr. split; [apply (Hrel Hr)|reflexivity].
    + split; [left; auto|]. intros Hr. split; [apply (Hrel Hr)|].
      rewrite Hf. intros [? ?]. discriminate.
  - intros [= <- <-].
    split; [exact Husr|]. split; [exact Htag|]. split; [exact Hsent|].
    split; [left; auto|]. intros Hr. destruct (Hrel Hr). discriminate.
Qed.

Lemma find_document_split id docs d :
  find_document id docs = Some d ->
  document_id d = id /\
  exists pre post, docs = pre ++ d :: post /\ id ∉ map document_id pre.
Proof.
  unfold find_document. induction docs as [|x docs IH]; simpl; [discriminate|].
  destruct (Z.eqb_spec (document_id x) id) as [E|Hne].
  - intros [= <-]. split; [exact E|]. exists [], docs. split; [reflexivity|].
    apply not_elem_of_nil.
  - intros H. destruct (IH H) as (E & pre & post & -> & Hpre).
    split; [exact E|]. exists (x :: pre), post. split; [reflexivity|].
    simpl. apply not_elem_of_cons. auto.
Qed.

Lemma find_document_at pre d post :
  document_id d ∉ map document_id pre ->
  find_document (document_id d) (pre ++ d :: post) = Some d.
Proof.
  unfold find_document. induction pre as [|x pre IH]; simpl; intros Hpre.
  - now rewrite Z.eqb_refl.
  - apply not_elem_of_cons in Hpre as [Hne Hpre].
    destruct (Z.eqb_spec (document_id x) (document_id d)); [congruence|auto].
Qed.

Lemma patch_tags_at l pre d post :
  document_id d ∉ map document_id pre ->
  patch_tags (document_id d) l (pre ++ d :: post)
  = pre ++ with_tags d l :: post.
Proof.
  induction pre as [|x pre IH]; simpl; intros Hpre.
  - now rewrite Z.eqb_refl.
  - apply not_elem_of_cons in Hpre as [Hne Hpre].
    destruct (Z.eqb_spec (document_id x) (document_id d)); [congruence|].
    now rewrite IH.
Qed.

End Client.

(** ** The reconciliation of one document *)

Section Reconcile.

Variable self : PaperlessSync.

(** Both code paths run the steps of §4.2. *)
Lemma sync_document_owner_tag_reconcile id r :
  sync_document_owner_tag self id r =
  (doc ← get_document id;
   match doc with
   | None => mret false
   | Some doc =>
       users ← get_users;
       tags ← get_tags;
       '(o, _) ← Spec.reconcile self users tags doc;
       mret (Spec.success o)
   end) r.
Proof.
  unfold sync_document_owner_tag, mbind, M_bind.
  destruct (get_document id r) as [[doc|] r1] eqn:Hdoc; [|reflexivity].
  assert (Hid : document_id doc = id).
  { apply get_document_spec in Hdoc as (_ & _ & [?|Hf] & _); [discriminate|].
    symmetry in Hf. now apply find_document_split in Hf. }
  subst id.
  destruct (get_users r1) as [users r2].
  destruct (get_tags r2) as [tags r3].
  unfold Spec.reconcile, Spec.attach, owner_username, mbind, M_bind, mret, M_ret.
  destruct (document_owner doc) as [owner_id|]; [|reflexivity].
  destruct (Z.eqb owner_id 0); [reflexivity|].
  destruct (users !! owner_id) as [username|]; [|reflexivity].
  destruct (tags !! get_owner_tag_name self username) as [t|].
  - destruct (bool_decide (t ∈ document_tags doc)); [reflexivity|].
    destruct (update_document_tags _ _ r3) as [[|] r4]; reflexivity.
  - destruct (owner_tag_mapping self !! username); [reflexivity|].
    destruct (create_tag _ r3) as [[t|] r4]; [|reflexivity].
    destruct (Z.eqb t 0); [reflexivity|].
    destruct (bool_decide (t ∈ document_tags doc)); [reflexivity|].
    destruct (update_document_tags _ _ r4) as [[|] r5]; reflexivity.
Qed.

Lemma full_sync_step_reconcile users doc stats tags r :
  full_sync_step self users doc stats tags r =
  ('(o, tags') ← Spec.reconcile self users tags doc;
   mret (Spec.tally o stats, tags')) r.
Proof.
  unfold full_sync_step, Spec.reconcile, Spec.attach, owner_username,
    mbind, M_bind, mret, M_ret.
  destruct (document_owner doc) as [owner_id|]; [|reflexivity].
  destruct (Z.eqb owner_id 0); [reflexivity|].
  destruct (users !! owner_id) as [username|]; [|reflexivity].
  destruct (tags !! get_owner_tag_name self username) as [t|].
  - destruct (bool_decide (t ∈ document_tags doc)); [reflexivity|].
    destruct (update_document_tags _ _ r) as [[|] r4]; reflexivity.
  - destruct (owner_tag_mapping self !! username); [reflexivity|].
    destruct (create_tag _ r) as [[t|] r4]; [|reflexivity].
    destruct (Z.eqb t 0); [reflexivity|].
    destruct (bool_decide (t ∈ document_tags doc)); [reflexivity|].
    destruct (update_document_tags _ _ r4) as [[|] r5]; reflexivity.
Qed.

Lemma attach_spec d ts t r o ts' r' pre post :
  Spec.attach d ts t r = ((o, ts'), r') ->
  documents r = pre ++ d :: post ->
  document_id d ∉ map document_id pre ->
  ts' = ts /\ users r' = users r /\ tags r' = tags r /\
  ((o = Spec.AlreadyTagged /\ t ∈ document_tags d /\ r' = r) \/
   (o = Spec.UpdateFailed /\ (t ∉ document_tags d) /\
    documents r' = documents r) \/
   (o = Spec.Updated /\ (t ∉ document_tags d) /\
    documents r' = pre ++ with_tags d (document_tags d ++ [t]) :: post)) /\
  (reliable r -> reliable r' /\ o <> Spec.UpdateFailed).
Proof.
  intros H Hdocs Hpre. unfold Spec.attach, mbind, M_bind in H.
  case_bool_decide as Hin.
  - injection H as <- <- <-. repeat (split; [reflexivity|]).
    split; [left; auto|]. intros Hr. split; [exact Hr|discriminate].
  - destruct (update_document_tags _ _ r) as [ok r1] eqn:Hu.
    injection H as <- <- <-.
    apply update_document_tags_spec in Hu as (Husr & Htag & _ & Hcase & Hrel).
    split; [reflexivity|]. split; [exact Husr|]. split; [exact Htag|].
    split.
    + destruct Hcase as [[-> Hd]|(-> & _ & Hd)]; [right; left; auto|].
      right; right. split; [reflexivity|]. split; [exact Hin|].
      rewrite Hd, Hdocs. now apply patch_tags_at.
    + intros Hr. destruct (Hrel Hr) as [Hr1 Hok]. split; [exact Hr1|].
      rewrite Hok; [discriminate|].
      rewrite Hdocs, find_document_at by exact Hpre. eauto.
Qed.

Lemma reconcile_spec us ts d r o ts' r' pre post :
  Spec.reconcile self us ts d r = ((o, ts'), r') ->
  documents r = pre ++ d :: post ->
  document_id d ∉ map document_id pre ->
  users r' = users r /\
  outcome_post self us ts ts' d pre post r r' o /\
  tag_directory r ⊆ tag_directory r' /\
  (ts ⊆ tag_directory r -> ts' ⊆ tag_directory r') /\
  (reliable r ->
   reliable r' /\ o <> Spec.UpdateFailed /\
   (ts = tag_directory r -> o <> Spec.TagCreateFailed)).
Proof.
  intros H Hdocs Hpre. unfold Spec.reconcile in H.
  destruct (owner_username us d) as [u|] eqn:Hown.
  2:{ injection H as <- <- <-. simpl. repeat (split; [done|]).
      intros Hr. repeat split; done. }
  cbv zeta in H.
  destruct (ts !! get_owner_tag_name self u) as [t|] eqn:Hts.
  - destruct (attach_spec _ _ _ _ _ _ _ _ _ H Hdocs Hpre)
      as (-> & Husr & Htag & Hcase & Hrel).
    assert (Hdir : tag_directory r' = tag_directory r)
      by (unfold tag_directory; now rewrite Htag).
    split; [exact Husr|]. rewrite Hdir.
    split; [|split; [done|split; [done|]]].
    + destruct Hcase as [(-> & Hin & ->)|[(-> & Hin & Hd)|(-> & Hin & Hd)]];
        simpl; exists u, t; auto.
    + intros Hr. destruct (Hrel Hr) as [? ?]. repeat split; auto.
      destruct Hcase as [(-> & _)|[(-> & _)|(-> & _)]]; discriminate.
  - destruct (owner_tag_mapping self !! u) as [mapped|] eqn:Hmap.
    { injection H as <- <- <-. simpl.
      split; [done|]. split; [exists u; eauto 10|]. repeat (split; [done|]).
      intros Hr. repeat split; done. }
    unfold mbind, M_bind in H.
    destruct (create_tag _ r) as [created r1] eqn:Hc.
    apply create_tag_spec in Hc as (Hd1 & Hu1 & _ & Hcase1 & Hrel1).
    destruct Hcase1 as [[-> Ht1]|(i & -> & Hnone & Ht1 & Hdir1)].
    + injection H as <- <- <-. simpl.
      assert (Hdir : tag_directory r1 = tag_directory r)
        by (unfold tag_directory; now rewrite Ht1).
      split; [done|]. split; [exists u; auto 10|]. rewrite Hdir.
      repeat (split; [done|]).
      intros Hr. destruct (Hrel1 Hr) as [Hr1 Hsome].
      split; [done|]. split; [done|]. intros ->. now destruct Hsome.
    + change (Z.eqb (Z.pos i) 0) with false in H. cbv iota in H.
      rewrite <- Hd1 in Hdocs.
      destruct (attach_spec _ _ _ _ _ _ _ _ _ H Hdocs Hpre)
        as (-> & Husr & Htag & Hcase & Hrel).
      assert (Hdir : tag_directory r' = <[get_owner_tag_name self u := Z.pos i]>
                                          (tag_directory r))
        by (rewrite <- Hdir1; unfold tag_directory; now rewrite Htag).
      split; [congruence|]. rewrite Hdir.
      split; [|split; [now apply insert_subseteq|split; [now apply insert_mono|]]].
      * destruct Hcase as [(-> & Hin & ->)|[(-> & Hin & Hd)|(-> & Hin & Hd)]];
          simpl; exists u, (Z.pos i); rewrite lookup_insert_eq;
          repeat split; auto; congruence.
      * intros Hr. destruct (Hrel1 Hr) as [Hr1 _].
        destruct (Hrel Hr1) as [? ?]. repeat split; auto.
        destruct Hcase as [(-> & _)|[(-> & _)|(-> & _)]]; discriminate.
Qed.

End Reconcile.

(** ** Tag-name resolution *)

(** C1: a mapped username resolves to its mapped tag name, whatever the
    prefix is; any other username resolves to the prefix followed by the
    username, and the prefix is ["owner:"] when none is configured.  The
    function is defined for every username and reads nothing else. *)
Theorem get_owner_tag_name_resolves
    (prefix : string) (mapping : gmap string string) (u : string) :
  (forall t, mapping !! u = Some t ->
     forall prefix', get_owner_tag_name (mkPaperlessSync prefix' mapping) u = t)
  /\
  (mapping !! u = None ->
     get_owner_tag_name (mkPaperlessSync prefix mapping) u = prefix +:+ u /\
     get_owner_tag_name (new_PaperlessSync None (Some mapping)) u
     = "owner:" +:+ u).
Proof.
  unfold get_owner_tag_name. simpl. split.
  - intros t -> prefix'. reflexivity.
  - intros ->. split; reflexivity.
Qed.

Lemma get_owner_tag_name_resolves_witness :
  get_owner_tag_name
    (mkPaperlessSync "tag-" {[ "jane"%string := "Jane-Documents"%string ]})
    "jane" = "Jane-Documents"%string /\
  get_owner_tag_name
    (mkPaperlessSync "tag-" {[ "jane"%string := "Jane-Documents"%string ]})
    "bob" = "tag-bob"%string.
Proof.
  split.
  - apply (proj1 (get_owner_tag_name_resolves
                    "x" {[ "jane"%string := "Jane-Documents"%string ]} "jane")).
    reflexivity.
  - apply (proj2 (get_owner_tag_name_resolves
                    "tag-" {[ "jane"%string := "Jane-Documents"%string ]} "bob")).
    reflexivity.
Defined.

(** ** Document-ID extraction *)

(** C7, as stated, fails: the URL [https://host/documents/5] followed by a
    newline does not end in [/documents/<digits>/] and has no
    [document_id=] parameter, so the specification extracts nothing.  The
    code returns 5: searched without [re.MULTILINE], [$] also matches
    just before a newline that ends the string. *)
Lemma extract_id_newline_counterexample :
  Spec.extract_id 4300 Demo.newline_url = None /\
  extract_document_id_from_url 4300 (JString Demo.newline_url) = Some 5 /\
  extract_document_id_from_url 4300 (JString Demo.newline_url)
  <> Spec.extract_id 4300 Demo.newline_url.
Proof. repeat split. discriminate. Qed.

Lemma extract_documents_tail (max_str_digits : nat) (prefix digits : string)
    (tl : list ascii) :
  digits <> ""%string ->
  forallb Py.is_digit (list_ascii_of_string digits) = true ->
  Py.opt_slash_dollar tl = true ->
  extract_from_str max_str_digits
    (prefix +:+ "/documents/" +:+ digits +:+ string_of_list_ascii tl)
  = Py.int max_str_digits (list_ascii_of_string digits).
Proof.
  intros Hne Hd Ht. unfold extract_from_str.
  rewrite search_documents_suffix, !list_ascii_of_string_app,
    list_ascii_of_string_of_list_ascii.
  change (list_ascii_of_string "/documents/") with Py.documents_literal.
  rewrite documents_suffix_app; [reflexivity| |exact Hd|exact Ht].
  intros E. apply Hne. now destruct digits.
Qed.

(** C7, amended: the code extracts what the specification describes once
    a newline at the very end of the URL is set aside for the first
    pattern: the digits of a final [/documents/<digits>/] (the slash
    optional), else the first [document_id=<digits>], else nothing; and
    nothing when [int] refuses the digits.  The three URLs of the
    specification give 55, 77 and nothing. *)
Theorem extract_document_id_from_url_chomped (max_str_digits : nat) :
  (forall url : string,
     extract_document_id_from_url max_str_digits (JString url)
     = Spec.extract_id_chomped max_str_digits url) /\
  (forall prefix digits : string,
     digits <> ""%string ->
     forallb Py.is_digit (list_ascii_of_string digits) = true ->
     extract_document_id_from_url max_str_digits
       (JString (prefix +:+ "/documents/" +:+ digits +:+ "/"))
     = Py.int max_str_digits (list_ascii_of_string digits) /\
     extract_document_id_from_url max_str_digits
       (JString (prefix +:+ "/documents/" +:+ digits +:+ ""))
     = Py.int max_str_digits (list_ascii_of_string digits) /\
     extract_document_id_from_url max_str_digits
       (JString (prefix +:+ "/documents/" +:+ digits +:+ String Py.newline ""))
     = Py.int max_str_digits (list_ascii_of_string digits)) /\
  extract_document_id_from_url max_str_digits
    (JString "https://host/documents/55/") = Some 55 /\
  extract_document_id_from_url max_str_digits
    (JString "https://host/api?document_id=77") = Some 77 /\
  extract_document_id_from_url max_str_digits
    (JString "https://host/other") = None.
Proof.
  split; [|split; [|repeat split]].
  - intros url. simpl. unfold extract_from_str, Spec.extract_id_chomped.
    now rewrite search_documents_suffix.
  - intros prefix digits Hne Hd. simpl. repeat split.
    + now apply (extract_documents_tail _ prefix digits [Py.slash]).
    + now apply (extract_documents_tail _ prefix digits []).
    + now apply (extract_documents_tail _ prefix digits [Py.newline]).
Qed.

Lemma extract_document_id_from_url_chomped_witness :
  extract_document_id_from_url 4300
    (JString ("https://host" +:+ "/documents/" +:+ "55" +:+ "/"))
  = Py.int 4300 (list_ascii_of_string "55").
Proof.
  apply (proj1 (proj2 (extract_document_id_from_url_chomped 4300))
           "https://host"%string "55"%string);
    [discriminate|reflexivity].
Defined.

Lemma extract_documents_zero (max_str_digits : nat) (prefix : string) :
  extract_from_str max_str_digits (prefix +:+ "/documents/0/") = Some 0.
Proof.
  unfold extract_from_str.
  rewrite search_documents_suffix, list_ascii_of_string_app, rev_app_distr.
  reflexivity.
Qed.

Lemma extract_truthy (max_str_digits : nat) (v : JSON) (id : Z) :
  extract_document_id_from_url max_str_digits v = Some id -> truthy v = true.
Proof.
  destruct v as [| | |s| |]; simpl; try discriminate.
  destruct s; [discriminate|reflexivity].
Qed.

Lemma dict_get_truthy (key : string) (fields : list (string * JSON)) :
  truthy (dict_get key fields) = true -> truthy (JObject fields) = true.
Proof. destruct fields; [discriminate|reflexivity]. Qed.

(** ** The webhook *)

(** C10: for a payload whose URL ends in [/documents/0/] the extraction
    succeeds with the identifier 0, and the webhook, testing the
    identifier for truth, answers 400 without sending a single request.
    Whatever the URL, an extracted identifier of 0 ends that way:
    document 0 is never reconciled through the webhook. *)
Theorem webhook_rejects_document_zero
    (max_str_digits : nat) (sync_client : PaperlessSync)
    (fields : list (string * JSON)) (prefix : string) (r : Remote) :
  dict_get "url" fields = JString (prefix +:+ "/documents/0/") ->
  extract_document_id_from_url max_str_digits
    (JString (prefix +:+ "/documents/0/")) = Some 0 /\
  document_webhook max_str_digits sync_client (Decoded (JObject fields)) r
  = (bad_request "Invalid document URL", r) /\
  (forall payload,
     extract_document_id_from_url max_str_digits (dict_get "url" payload)
     = Some 0 ->
     document_webhook max_str_digits sync_client (Decoded (JObject payload)) r
     = (bad_request "Invalid document URL", r)).
Proof.
  assert (Hzero : forall payload,
            extract_document_id_from_url max_str_digits (dict_get "url" payload)
            = Some 0 ->
            document_webhook max_str_digits sync_client
              (Decoded (JObject payload)) r
            = (bad_request "Invalid document URL", r)).
  { intros payload He. pose proof (extract_truthy _ _ _ He) as Ht.
    unfold document_webhook.
    now rewrite (dict_get_truthy _ _ Ht), Ht, He. }
  intros Hurl. split; [apply extract_documents_zero|].
  split; [|exact Hzero].
  apply Hzero. rewrite Hurl. apply extract_documents_zero.
Qed.

Lemma webhook_rejects_document_zero_witness :
  extract_document_id_from_url 4300
    (JString ("https://host" +:+ "/documents/0/")) = Some 0 /\
  document_webhook 4300 Demo.client
    (Decoded (JObject [("url"%string, JString "https://host/documents/0/")]))
    (Demo.platform [])
  = (bad_request "Invalid document URL", Demo.platform []).
Proof.
  destruct (webhook_rejects_document_zero 4300 Demo.client
              [("url"%string, JString "https://host/documents/0/")]
              "https://host" (Demo.platform []) eq_refl) as (H1 & H2 & _).
  split; [exact H1|exact H2].
Defined.

(** C8, as stated, fails: a JSON body without a [url] field is not
    rejected with 400, it is answered 200 with the status [ignored]. *)
Lemma webhook_missing_url_counterexample :
  document_webhook 4300 Demo.client
    (Decoded (JObject [("event"%string, JString "updated")])) (Demo.platform [])
  = (ignored_response, Demo.platform []) /\
  status ignored_response <> 400.
Proof. split; [reflexivity|discriminate]. Qed.

(** C8, amended: a body without JSON data, and a body whose [url] yields
    no document identifier (or the identifier 0), are rejected with 400;
    a JSON object without a [url] (or with an empty one) is answered 200
    with the status [ignored]; in these three cases no request is sent to
    the platform.  A request that is processed is answered 200 with
    [status], [message] and [document_id] when the reconciliation
    succeeds and 500 when it fails; a body that cannot be decoded, or
    that decodes to something other than an object, ends in the
    exception clause and is answered 500. *)
Theorem webhook_responses
    (max_str_digits : nat) (sync_client : PaperlessSync) (r : Remote) :
  (forall data, truthy data = false ->
     document_webhook max_str_digits sync_client (Decoded data) r
     = (bad_request "No JSON data received", r)) /\
  (forall fields, truthy (JObject fields) = true ->
     truthy (dict_get "url" fields) = false ->
     document_webhook max_str_digits sync_client (Decoded (JObject fields)) r
     = (ignored_response, r)) /\
  (forall fields, truthy (dict_get "url" fields) = true ->
     extract_document_id_from_url max_str_digits (dict_get "url" fields) = None
     \/ extract_document_id_from_url max_str_digits (dict_get "url" fields)
        = Some 0 ->
     document_webhook max_str_digits sync_client (Decoded (JObject fields)) r
     = (bad_request "Invalid document URL", r)) /\
  (forall fields document_id,
     extract_document_id_from_url max_str_digits (dict_get "url" fields)
     = Some document_id ->
     document_id <> 0 ->
     document_webhook max_str_digits sync_client (Decoded (JObject fields)) r
     = (processed_response document_id
          (fst (sync_document_owner_tag sync_client document_id r)),
        snd (sync_document_owner_tag sync_client document_id r))) /\
  (forall message,
     document_webhook max_str_digits sync_client (Raised message) r
     = (mkResponse [("error"%string, JString message)] 500, r)) /\
  (forall data,
     truthy data = true ->
     (forall fields, data <> JObject fields) ->
     status (fst (document_webhook max_str_digits sync_client (Decoded data) r))
     = 500 /\
     snd (document_webhook max_str_digits sync_client (Decoded data) r) = r).
Proof.
  unfold document_webhook.
  split; [|split; [|split; [|split; [|split]]]].
  - intros data ->. reflexivity.
  - intros fields -> ->. reflexivity.
  - intros fields Ht He. rewrite (dict_get_truthy _ _ Ht), Ht. simpl.
    destruct He as [-> | ->]; reflexivity.
  - intros fields document_id He Hne.
    pose proof (extract_truthy _ _ _ He) as Ht.
    rewrite (dict_get_truthy _ _ Ht), Ht, He. simpl.
    destruct (Z.eqb_spec document_id 0) as [|_]; [contradiction|].
    unfold mbind, M_bind.
    destruct (sync_document_owner_tag sync_client document_id r) as [[|] r'];
      reflexivity.
  - intros message. reflexivity.
  - intros data Ht Hobj. rewrite Ht.
    destruct data as [| | | | |fields]; try (split; reflexivity).
    now destruct (Hobj fields).
Qed.

Lemma webhook_responses_witness :
  document_webhook 4300 Demo.client (Decoded JNull) (Demo.platform [])
  = (bad_request "No JSON data received", Demo.platform []) /\
  document_webhook 4300 Demo.client
    (Decoded (JObject [("event"%string, JString "updated")])) (Demo.platform [])
  = (ignored_response, Demo.platform []) /\
  document_webhook 4300 Demo.client
    (Decoded (JObject [("url"%string, JString "https://host/other")]))
    (Demo.platform [])
  = (bad_request "Invalid document URL", Demo.platform []) /\
  fst (document_webhook 4300 Demo.client
         (Decoded (JObject [("url"%string, JString "https://host/documents/11/")]))
         (Demo.platform []))
  = processed_response 11 true.
Proof.
  pose proof (webhook_responses 4300 Demo.client (Demo.platform []))
    as (H1 & H2 & H3 & H4 & _).
  split; [apply H1; reflexivity|].
  split; [apply H2; reflexivity|].
  split; [apply H3; [reflexivity|left; reflexivity]|].
  rewrite (H4 [("url"%string, JString "https://host/documents/11/")] 11);
    [reflexivity|reflexivity|discriminate].
Defined.

(** ** Single-document reconciliation *)

Lemma reads_spec id r d us ts r3 :
  reads id r = ((d, us, ts), r3) ->
  same_data r r3 /\ sent r3 = sent r ++ [GetDocument id; GetUsers; GetTags].
Proof.
  unfold reads, mbind, M_bind, mret, M_ret.
  destruct (get_document id r) as [d1 r1] eqn:H1.
  destruct (get_users r1) as [us2 r2] eqn:H2.
  destruct (get_tags r2) as [ts3 r3'] eqn:H3.
  intros [= <- <- <- <-].
  apply get_document_spec in H1 as (Hd1 & Hs1 & _).
  apply get_users_spec in H2 as (Hd2 & Hs2 & _).
  apply get_tags_spec in H3 as (Hd3 & Hs3 & _).
  split; [eauto using same_data_trans|].
  now rewrite Hs3, Hs2, Hs1, <- !app_assoc.
Qed.

(** A reconciliation whose document was fetched is the three reads
    followed by the steps of §4.2. *)
Lemma sync_after_reads self id r d us ts r3 :
  reads id r = ((Some d, us, ts), r3) ->
  sync_document_owner_tag self id r
  = (Spec.success (fst (fst (Spec.reconcile self us ts d r3))),
     snd (Spec.reconcile self us ts d r3)).
Proof.
  intros H. rewrite sync_document_owner_tag_reconcile.
  unfold reads, mbind, M_bind, mret, M_ret in *.
  destruct (get_document id r) as [d1 r1].
  destruct (get_users r1) as [us2 r2] eqn:Hus.
  destruct (get_tags r2) as [ts3 r3'] eqn:Hts.
  injection H as -> <- <- <-. cbv beta iota. rewrite Hus, Hts.
  now destruct (Spec.reconcile self us2 ts3 d r3') as [[o ts'] r4].
Qed.

Lemma get_document_up id r :
  hd false (outages r) = false ->
  fst (get_document id r) = find_document id (documents r) /\
  outages (snd (get_document id r)) = tail (outages r).
Proof.
  unfold get_document, send, mbind, M_bind, gets.
  destruct (outages r) as [|[|] later]; simpl; try discriminate; auto.
Qed.

Lemma get_users_down r :
  hd false (outages r) = true -> fst (get_users r) = ∅.
Proof.
  unfold get_users, send, mbind, M_bind, gets.
  destruct (outages r) as [|[|] later]; simpl; try discriminate; auto.
Qed.

Lemma reads_parts id r :
  fst (fst (fst (reads id r))) = fst (get_document id r) /\
  snd (fst (fst (reads id r))) = fst (get_users (snd (get_document id r))).
Proof.
  unfold reads, mbind, M_bind, mret, M_ret.
  destruct (get_document id r) as [d1 r1]. simpl.
  destruct (get_users r1) as [us2 r2]. simpl.
  destruct (get_tags r2) as [ts3 r3]. auto.
Qed.

(** C9: when the request for the users is lost, the client goes on with
    an empty directory; whoever owns the document, the reconciliation
    finds no owner in it, reports success and changes nothing: it sends
    its three reads and no more, exactly as for a document without an
    owner. *)
Theorem users_fetch_failure_reads_as_no_owner
    (self : PaperlessSync) (id : Z) (r : Remote) (d : Document)
    (later : list bool) :
  find_document id (documents r) = Some d ->
  outages r = false :: true :: later ->
  fst (get_users (snd (get_document id r))) = ∅ /\
  (exists r',
     sync_document_owner_tag self id r = (true, r') /\
     same_data r r' /\
     sent r' = sent r ++ [GetDocument id; GetUsers; GetTags]) /\
  (forall r0 d0,
     find_document id (documents r0) = Some d0 ->
     document_owner d0 = None ->
     hd false (outages r0) = false ->
     exists r0',
       sync_document_owner_tag self id r0 = (true, r0') /\
       same_data r0 r0' /\
       sent r0' = sent r0 ++ [GetDocument id; GetUsers; GetTags]).
Proof.
  intros Hfind Hout. split; [|split].
  - destruct (get_document_up id r) as [_ Hlater]; [now rewrite Hout|].
    apply get_users_down. now rewrite Hlater, Hout.
  - destruct (reads id r) as [[[o us] ts] r3] eqn:Hreads.
    pose proof (reads_spec _ _ _ _ _ _ Hreads) as [Hsame Hsent].
    pose proof (reads_parts id r) as [Ho Hus]. rewrite Hreads in Ho, Hus.
    simpl in Ho, Hus.
    destruct (get_document_up id r) as [Hdoc Hlater]; [now rewrite Hout|].
    rewrite Hout in Hlater. simpl in Hlater.
    rewrite get_users_down in Hus by now rewrite Hlater.
    rewrite Hdoc, Hfind in Ho. subst o us.
    exists r3. rewrite (sync_after_reads _ _ _ _ _ _ _ Hreads).
    unfold Spec.reconcile, owner_username.
    destruct (document_owner d) as [o|]; [|auto].
    destruct (Z.eqb o 0); [auto|]. rewrite lookup_empty. auto.
  - intros r0 d0 Hfind0 Hown Hup.
    destruct (reads id r0) as [[[o us] ts] r3] eqn:Hreads.
    pose proof (reads_spec _ _ _ _ _ _ Hreads) as [Hsame Hsent].
    pose proof (reads_parts id r0) as [Ho _]. rewrite Hreads in Ho.
    simpl in Ho.
    destruct (get_document_up id r0 Hup) as [Hdoc _].
    rewrite Hdoc, Hfind0 in Ho. subst o.
    exists r3. rewrite (sync_after_reads _ _ _ _ _ _ _ Hreads).
    unfold Spec.reconcile, owner_username. rewrite Hown. auto.
Qed.

Lemma users_fetch_failure_reads_as_no_owner_witness :
  fst (get_users (snd (get_document 11 (Demo.platform [false; true])))) = ∅ /\
  exists r',
    sync_document_owner_tag Demo.client 11 (Demo.platform [false; true])
    = (true, r') /\
    same_data (Demo.platform [false; true]) r' /\
    sent r' = [GetDocument 11; GetUsers; GetTags].
Proof.
  destruct (users_fetch_failure_reads_as_no_owner Demo.client 11
              (Demo.platform [false; true])
              (mkDocument 11 "invoice" (Some 3) []) [] eq_refl eq_refl)
    as (H1 & H2 & _).
  split; [exact H1|exact H2].
Defined.

(** C4: when the owner's username has an entry in the mapping and the
    mapped tag name is not in the tag directory, the reconciliation of
    one document reports failure after its three reads, and the turn of
    the batch loop counts the document as failed without sending any
    request: no tag is created and no document is touched. *)
Theorem mapped_tag_missing_fails (self : PaperlessSync) :
  (forall id r d us ts r3 u n,
     reads id r = ((Some d, us, ts), r3) ->
     owner_username us d = Some u ->
     owner_tag_mapping self !! u = Some n ->
     ts !! n = None ->
     sync_document_owner_tag self id r = (false, r3) /\
     Spec.reconcile self us ts d r3 = ((Spec.MappedTagMissing, ts), r3) /\
     documents r3 = documents r /\ tags r3 = tags r /\
     sent r3 = sent r ++ [GetDocument id; GetUsers; GetTags]) /\
  (forall us d stats ts r u n,
     owner_username us d = Some u ->
     owner_tag_mapping self !! u = Some n ->
     ts !! n = None ->
     full_sync_step self us d stats ts r
     = ((count_failed (count_processed stats), ts), r)).
Proof.
  assert (Hrec : forall us d ts r u n,
             owner_username us d = Some u ->
             owner_tag_mapping self !! u = Some n ->
             ts !! n = None ->
             Spec.reconcile self us ts d r = ((Spec.MappedTagMissing, ts), r)).
  { intros us d ts r u n Hown Hmap Hts. unfold Spec.reconcile.
    rewrite Hown. cbv zeta. unfold get_owner_tag_name.
    now rewrite Hmap, Hts. }
  split.
  - intros id r d us ts r3 u n Hreads Hown Hmap Hts.
    rewrite (sync_after_reads _ _ _ _ _ _ _ Hreads).
    rewrite (Hrec _ _ _ _ _ _ Hown Hmap Hts).
    apply reads_spec in Hreads as [(Hd & _ & Ht & _) Hsent]. auto.
  - intros us d stats ts r u n Hown Hmap Hts.
    rewrite full_sync_step_reconcile. unfold mbind, M_bind.
    now rewrite (Hrec _ _ _ _ _ _ Hown Hmap Hts).
Qed.

Lemma mapped_tag_missing_fails_witness :
  (exists r3,
     sync_document_owner_tag Demo.client 10 (Demo.platform []) = (false, r3) /\
     documents r3 = documents (Demo.platform []) /\
     tags r3 = tags (Demo.platform [])) /\
  full_sync_step Demo.client (user_directory (Demo.platform []))
    (mkDocument 10 "letter" (Some 2) [4]) (mkStats 3 0 0 0)
    (tag_directory (Demo.platform [])) (Demo.platform [])
  = ((mkStats 3 1 0 1, tag_directory (Demo.platform [])), Demo.platform []).
Proof.
  destruct (mapped_tag_missing_fails Demo.client) as [Hone Hall].
  split.
  - exists (snd (reads 10 (Demo.platform []))).
    destruct (Hone 10 (Demo.platform [])
                (mkDocument 10 "letter" (Some 2) [4])
                (user_directory (Demo.platform []))
                (tag_directory (Demo.platform []))
                (snd (reads 10 (Demo.platform [])))
                "jane"%string "Jane-Documents"%string)
      as (H1 & _ & H2 & H3 & _); [reflexivity..|auto].
  - apply (Hall (user_directory (Demo.platform []))
             (mkDocument 10 "letter" (Some 2) [4]) (mkStats 3 0 0 0)
             (tag_directory (Demo.platform [])) (Demo.platform [])
             "jane"%string "Jane-Documents"%string);
      reflexivity.
Defined.

(** ** Batch reconciliation *)

Section Batch.

Variable self : PaperlessSync.

Lemma concat_push {A} (x : A) (pages : list (list A)) :
  concat (push x pages) = x :: concat pages.
Proof. destruct pages; reflexivity. Qed.

Lemma concat_paginate {A} (size room : nat) (l : list A) :
  concat (paginate size room l) = l.
Proof.
  revert room. induction l as [|x l IH]; intros room; simpl; [reflexivity|].
  destruct room; simpl; now rewrite concat_push, IH.
Qed.

Lemma get_all_documents_loop_spec pages page acc r docs r' :
  get_all_documents_loop page pages acc r = (docs, r') ->
  same_data r r' /\
  (exists j, sent r' = sent r ++ map GetDocuments (seq page j)) /\
  (if existsb (fun down => down) (take (length pages) (outages r))
   then docs = []
   else docs = acc ++ concat pages).
Proof.
  revert page acc r. induction pages as [|results next IH]; intros page acc r.
  - simpl. intros [= <- <-]. split; [apply same_data_refl|].
    split; [exists O; simpl; now rewrite app_nil_r|].
    simpl. now rewrite app_nil_r.
  - simpl. unfold mbind, M_bind.
    destruct (send (GetDocuments page) r) as [ok r1] eqn:Hs.
    apply send_spec in Hs as (Hsame & Hsent & Hout & Hok).
    destruct (outages r) as [|down later]; simpl in Hout, Hok; subst ok.
    + simpl. intros H. apply IH in H as (Hsame' & (j & Hsent') & Hdocs).
      split; [eauto using same_data_trans|].
      split; [exists (S j); simpl; now rewrite Hsent', Hsent, <- app_assoc|].
      rewrite Hout, take_nil in Hdocs. simpl in Hdocs.
      now rewrite Hdocs, <- app_assoc.
    + destruct down; simpl.
      * intros [= <- <-]. split; [exact Hsame|].
        split; [exists 1%nat; exact Hsent|reflexivity].
      * intros H. apply IH in H as (Hsame' & (j & Hsent') & Hdocs).
        split; [eauto using same_data_trans|].
        split; [exists (S j); simpl; now rewrite Hsent', Hsent, <- app_assoc|].
        rewrite Hout in Hdocs.
        destruct (existsb _ (take (length next) later)); [exact Hdocs|].
        now rewrite Hdocs, <- app_assoc.
Qed.

Lemma get_all_documents_spec r docs r' :
  get_all_documents r = (docs, r') ->
  same_data r r' /\
  (exists j, sent r' = sent r ++ map GetDocuments (seq 1 j)) /\
  docs = (if documents_fetch_fails r then [] else documents r).
Proof.
  unfold get_all_documents, mbind, M_bind, gets. intros H.
  apply get_all_documents_loop_spec in H as (Hsame & Hsent & Hdocs).
  split; [exact Hsame|]. split; [exact Hsent|].
  unfold documents_fetch_fails, page_count.
  destruct (existsb _ _); [exact Hdocs|].
  now rewrite Hdocs, concat_paginate.
Qed.

(** The loop tallies the outcomes of its documents. *)
Lemma full_sync_loop_tally us docs stats ts r :
  fst (fst (full_sync_loop self us docs stats ts r))
  = foldl (fun s o => Spec.tally o s) stats (fst (outcomes self us docs ts r)).
Proof.
  revert stats ts r. induction docs as [|d docs IH]; intros stats ts r;
    [reflexivity|].
  simpl. unfold mbind, M_bind, mret, M_ret.
  rewrite full_sync_step_reconcile. unfold mbind, M_bind, mret, M_ret.
  destruct (Spec.reconcile self us ts d r) as [[o ts1] r1].
  rewrite IH.
  now destruct (outcomes self us docs ts1 r1) as [os r2].
Qed.

Lemma tally_counts os stats :
  let stats' := foldl (fun s o => Spec.tally o s) stats os in
  total stats' = total stats /\
  processed stats' = processed stats + Z.of_nat (length os) /\
  succeeded stats' = succeeded stats + how_many attached os /\
  failed stats' = failed stats + how_many failure os.
Proof.
  unfold how_many. revert stats.
  induction os as [|o os IH]; intros stats; simpl.
  - repeat split; lia.
  - destruct (IH (Spec.tally o stats)) as (Ht & Hp & Hs & Hf).
    rewrite Ht, Hp, Hs, Hf. destruct o; simpl; repeat split; lia.
Qed.

Lemma reconcile_no_owner us ts d r :
  skipped (fst (fst (Spec.reconcile self us ts d r)))
  = bool_decide (owner_username us d = None).
Proof.
  unfold Spec.reconcile, Spec.attach, mbind, M_bind.
  destruct (owner_username us d) as [u|]; [|reflexivity]. cbv zeta.
  destruct (ts !! _) as [t|].
  - destruct (bool_decide (t ∈ _)); [reflexivity|].
    now destruct (update_document_tags _ _ r) as [[|] r1].
  - destruct (owner_tag_mapping self !! u); [reflexivity|].
    destruct (create_tag _ r) as [[t|] r1]; [|reflexivity].
    destruct (Z.eqb t 0); [reflexivity|].
    destruct (bool_decide (t ∈ _)); [reflexivity|].
    now destruct (update_document_tags _ _ r1) as [[|] r2].
Qed.

Lemma outcomes_skipped us docs ts r :
  map skipped (fst (outcomes self us docs ts r))
  = map (fun d => bool_decide (owner_username us d = None)) docs.
Proof.
  revert ts r. induction docs as [|d docs IH]; intros ts r; [reflexivity|].
  simpl. unfold mbind, M_bind.
  pose proof (reconcile_no_owner us ts d r) as Hd.
  destruct (Spec.reconcile self us ts d r) as [[o ts1] r1].
  specialize (IH ts1 r1).
  destruct (outcomes self us docs ts1 r1) as [os r2].
  simpl in *. now rewrite Hd, IH.
Qed.

End Batch.

(** C5, as stated, fails: a batch over the one document that nobody owns
    ends with [succeeded] at 0, where the sentence on counts has the
    no-owner outcome counted as a success. *)
Lemma full_sync_no_owner_counterexample :
  fst (outcomes Demo.client (user_directory (Demo.unowned []))
         (documents (Demo.unowned [])) (tag_directory (Demo.unowned []))
         (Demo.unowned []))
  = [Spec.NoOwner] /\
  fst (full_sync Demo.client (Demo.unowned [])) = mkStats 1 1 0 0 /\
  Spec.tally_claimed Spec.NoOwner (mkStats 1 0 0 0) = mkStats 1 1 1 0 /\
  fst (full_sync Demo.client (Demo.unowned []))
  <> Spec.tally_claimed Spec.NoOwner (mkStats 1 0 0 0).
Proof. repeat split. discriminate. Qed.

Lemma full_sync_step_tally (self : PaperlessSync) us d stats ts r0 :
  full_sync_step self us d stats ts r0
  = (Spec.tally (fst (fst (Spec.reconcile self us ts d r0))) stats,
     snd (fst (Spec.reconcile self us ts d r0)),
     snd (Spec.reconcile self us ts d r0)).
Proof.
  rewrite full_sync_step_reconcile. unfold mbind, M_bind.
  now destruct (Spec.reconcile self us ts d r0) as [[o ts'] r'].
Qed.

(** The counters of a run, by the outcomes of its documents. *)
Lemma full_sync_run_counts (self : PaperlessSync) (r : Remote) :
  let '(docs, r1) := get_all_documents r in
  let '(us, r2) := get_users r1 in
  let '(ts, r3) := get_tags r2 in
  let os := fst (outcomes self us docs ts r3) in
  let stats := fst (full_sync self r) in
  total stats = Z.of_nat (length docs) /\
  processed stats = Z.of_nat (length docs) /\
  succeeded stats = how_many attached os /\
  failed stats = how_many failure os /\
  map skipped os = map (fun d => bool_decide (owner_username us d = None)) docs.
Proof.
  unfold full_sync, mbind, M_bind.
  destruct (get_all_documents r) as [docs r1].
  destruct (get_users r1) as [us r2].
  destruct (get_tags r2) as [ts r3].
  cbv zeta. rewrite outcomes_skipped.
  destruct docs as [|d docs]; [repeat split|].
  remember (d :: docs) as ds eqn:Eds.
  pose proof (full_sync_loop_tally self us ds
                (mkStats (Z.of_nat (length ds)) 0 0 0) ts r3) as Hl.
  destruct (full_sync_loop self us ds _ ts r3) as [[stats ts'] r4].
  simpl in Hl. unfold mret, M_ret. simpl fst. subst stats.
  destruct (tally_counts (fst (outcomes self us ds ts r3))
              (mkStats (Z.of_nat (length ds)) 0 0 0))
    as (Ht & Hp & Hs & Hf).
  simpl in Ht, Hp, Hs, Hf. rewrite Ht, Hp, Hs, Hf.
  assert (Hlen : length (fst (outcomes self us ds ts r3)) = length ds).
  { rewrite <- (length_map skipped), outcomes_skipped. apply length_map. }
  rewrite Hlen. repeat split; lia.
Qed.

(** C5, amended: every turn of the loop counts its document as processed,
    as succeeded when the owner tag was already there or has just been
    attached, as failed when the mapped tag is missing, the tag could not
    be created or the update failed, and as neither when the document
    has no owner to go by.  Over a run [total] and [processed] end as
    the number of fetched documents, [succeeded] and [failed] as the
    numbers of those outcomes, and the skipped documents are exactly the
    ones without an owner in the users directory. *)
Theorem full_sync_counts (self : PaperlessSync) (r : Remote) :
  (forall us d stats ts r0,
     full_sync_step self us d stats ts r0
     = (Spec.tally (fst (fst (Spec.reconcile self us ts d r0))) stats,
        snd (fst (Spec.reconcile self us ts d r0)),
        snd (Spec.reconcile self us ts d r0))) /\
  let '(docs, r1) := get_all_documents r in
  let '(us, r2) := get_users r1 in
  let '(ts, r3) := get_tags r2 in
  let os := fst (outcomes self us docs ts r3) in
  let stats := fst (full_sync self r) in
  total stats = Z.of_nat (length docs) /\
  processed stats = Z.of_nat (length docs) /\
  succeeded stats = how_many attached os /\
  failed stats = how_many failure os /\
  map skipped os = map (fun d => bool_decide (owner_username us d = None)) docs.
Proof.
  split.
  - intros us d stats ts r0. apply full_sync_step_tally.
  - apply full_sync_run_counts.
Qed.

(** C6, as stated, fails: with the request for the users lost, and with
    the request for the tags lost, the batch is not aborted; it goes
    through the three documents it fetched. *)
Lemma full_sync_users_fetch_counterexample :
  fst (get_users (snd (get_all_documents (Demo.platform [false; true])))) = ∅ /\
  fst (full_sync Demo.client (Demo.platform [false; true]))
  = mkStats 3 3 0 0 /\
  fst (full_sync Demo.client (Demo.platform [false; false; true]))
  = mkStats 3 3 1 1 /\
  fst (full_sync Demo.client (Demo.platform [false; true]))
  <> mkStats 0 0 0 0.
Proof. repeat split. discriminate. Qed.

(** C6, amended: when a request for a page of documents is lost, the
    batch ends with all four counters at zero, having sent nothing but
    reads and left the platform as it was.  A lost request for the users
    or for the tags does not abort it: whenever the documents arrive,
    [total] and [processed] end as their number. *)
Theorem full_sync_aborts_without_documents (self : PaperlessSync) (r : Remote) :
  (documents_fetch_fails r = true ->
   exists r' j,
     full_sync self r = (mkStats 0 0 0 0, r') /\ same_data r r' /\
     sent r' = sent r ++ map GetDocuments (seq 1 j) ++ [GetUsers; GetTags]) /\
  (documents_fetch_fails r = false ->
   total (fst (full_sync self r)) = Z.of_nat (length (documents r)) /\
   processed (fst (full_sync self r)) = Z.of_nat (length (documents r))).
Proof.
  pose proof (full_sync_run_counts self r) as Hcounts.
  unfold full_sync, mbind, M_bind in *.
  destruct (get_all_documents r) as [docs r1] eqn:Hdocs.
  apply get_all_documents_spec in Hdocs as (Hsame1 & (j & Hsent1) & ->).
  destruct (get_users r1) as [us r2] eqn:Hus.
  apply get_users_spec in Hus as (Hsame2 & Hsent2 & _).
  destruct (get_tags r2) as [ts r3] eqn:Hts.
  apply get_tags_spec in Hts as (Hsame3 & Hsent3 & _).
  split; intros Hfail; rewrite Hfail in *.
  - exists r3, j. split; [reflexivity|].
    split; [eauto using same_data_trans|].
    now rewrite Hsent3, Hsent2, Hsent1, <- !app_assoc.
  - cbv zeta in Hcounts. destruct Hcounts as (Ht & Hp & _). auto.
Qed.

Lemma full_sync_aborts_without_documents_witness :
  (exists r' j,
     full_sync Demo.client (Demo.platform [true]) = (mkStats 0 0 0 0, r') /\
     same_data (Demo.platform [true]) r' /\
     sent r' = map GetDocuments (seq 1 j) ++ [GetUsers; GetTags]) /\
  total (fst (full_sync Demo.client (Demo.platform [false; true]))) = 3.
Proof.
  split.
  - apply (proj1 (full_sync_aborts_without_documents Demo.client
                    (Demo.platform [true]))).
    reflexivity.
  - apply (proj2 (full_sync_aborts_without_documents Demo.client
                    (Demo.platform [false; true]))).
    reflexivity.
Defined.

(** ** Additivity *)

Section Additive.

Variable self : PaperlessSync.

Lemma carried_over_weaken us dir dir' d d' :
  dir ⊆ dir' -> carried_over self us dir d d' -> carried_over self us dir' d d'.
Proof.
  intros Hsub [->|(u & t & Hown & Hdir & Hin & ->)]; [now left|].
  right. exists u, t. eauto using lookup_weaken.
Qed.

Lemma carried_over_users us us' dir d d' :
  (forall u, owner_username us d = Some u -> owner_username us' d = Some u) ->
  carried_over self us dir d d' -> carried_over self us' dir d d'.
Proof.
  intros Hus [->|(u & t & Hown & Hdir & Hin & ->)]; [now left|].
  right. exists u, t. auto.
Qed.

Lemma fetched_users_sound (us : gmap Z string) r d u :
  us = ∅ \/ us = user_directory r ->
  owner_username us d = Some u -> owner_username (user_directory r) d = Some u.
Proof.
  intros [-> | ->]; [|auto]. unfold owner_username.
  destruct (document_owner d) as [o|]; [|discriminate].
  destruct (Z.eqb o 0); [discriminate|]. now rewrite lookup_empty.
Qed.

Lemma fetched_tags_sound (ts : gmap string Z) r :
  ts = ∅ \/ ts = tag_directory r -> ts ⊆ tag_directory r.
Proof. intros [-> | ->]; [apply map_empty_subseteq|reflexivity]. Qed.

Lemma additive_same r r' :
  documents r' = documents r -> additive self r r'.
Proof.
  unfold additive. intros ->.
  induction (documents r); constructor; [now left|assumption].
Qed.

Lemma Forall2_carried_refl us dir (l : list Document) :
  Forall2 (carried_over self us dir) l l.
Proof. induction l; constructor; [now left|assumption]. Qed.

Lemma outcome_carried us ts ts' d pre post r r' o :
  outcome_post self us ts ts' d pre post r r' o ->
  documents r = pre ++ d :: post ->
  ts' ⊆ tag_directory r' ->
  (o <> Spec.Updated -> documents r' = documents r) /\
  exists d', documents r' = pre ++ d' :: post /\
             document_id d' = document_id d /\
             carried_over self us (tag_directory r') d d'.
Proof.
  intros Hpost Hdocs Hsub.
  assert (Hsame : documents r' = documents r ->
            exists d', documents r' = pre ++ d' :: post /\
                       document_id d' = document_id d /\
                       carried_over self us (tag_directory r') d d').
  { intros E. exists d. rewrite E. split; [exact Hdocs|]. split; [reflexivity|].
    now left. }
  destruct o; simpl in Hpost.
  - destruct Hpost as (_ & -> & _). auto.
  - destruct Hpost as (u & _ & _ & _ & -> & _). auto.
  - destruct Hpost as (u & _ & _ & _ & E & _). auto.
  - destruct Hpost as (u & t & _ & _ & _ & E). auto.
  - destruct Hpost as (u & t & Hown & Hts & Hin & E).
    split; [congruence|].
    exists (with_tags d (document_tags d ++ [t])).
    split; [exact E|]. split; [reflexivity|].
    right. exists u, t. eauto using lookup_weaken.
  - destruct Hpost as (u & t & _ & _ & _ & E). auto.
Qed.

(** The loop, with the documents it has been through in front of it. *)
Lemma full_sync_loop_additive us ds :
  forall pre stats ts r stats' ts' r',
    full_sync_loop self us ds stats ts r = ((stats', ts'), r') ->
    documents r = pre ++ ds ->
    NoDup (map document_id (pre ++ ds)) ->
    ts ⊆ tag_directory r ->
    users r' = users r /\
    tag_directory r ⊆ tag_directory r' /\
    exists ds', documents r' = pre ++ ds' /\
                Forall2 (carried_over self us (tag_directory r')) ds ds'.
Proof.
  induction ds as [|d ds IH]; intros pre stats ts r stats' ts' r' Hloop
    Hdocs Hnodup Hts.
  - injection Hloop as <- <- <-. split; [reflexivity|]. split; [reflexivity|].
    exists []. split; [exact Hdocs|constructor].
  - simpl in Hloop. unfold mbind, M_bind in Hloop.
    rewrite full_sync_step_reconcile in Hloop. unfold mbind, M_bind in Hloop.
    destruct (Spec.reconcile self us ts d r) as [[o ts1] r1] eqn:Hrec.
    unfold mret, M_ret in Hloop.
    assert (Hpre : document_id d ∉ map document_id pre).
    { rewrite map_app in Hnodup. apply NoDup_app in Hnodup as (_ & Hdis & _).
      intros Hin. apply (Hdis _ Hin). simpl. apply list_elem_of_here. }
    destruct (reconcile_spec self _ _ _ _ _ _ _ _ _ Hrec Hdocs Hpre)
      as (Husr & Hpost & Hmono & Hlocal & _).
    specialize (Hlocal Hts).
    destruct (outcome_carried _ _ _ _ _ _ _ _ _ Hpost Hdocs Hlocal)
      as (_ & d1 & Hdocs1 & Hid & Hcar).
    destruct (IH (pre ++ [d1]) _ _ _ _ _ _ Hloop) as (Husr' & Hmono' & ds' & Hd' & Hall).
    + now rewrite Hdocs1, <- app_assoc.
    + rewrite <- app_assoc. simpl. rewrite map_app in *. simpl in *.
      now rewrite Hid.
    + exact Hlocal.
    + split; [congruence|]. split; [now transitivity (tag_directory r1)|].
      exists (d1 :: ds'). split; [now rewrite Hd', <- app_assoc|].
      constructor; [|exact Hall]. eauto using carried_over_weaken.
Qed.

End Additive.

(** What a single-document run does to the collection: nothing, or one
    identifier more on the document it was called for. *)
Lemma sync_document_owner_tag_frame (self : PaperlessSync) (r : Remote) id :
  users (snd (sync_document_owner_tag self id r)) = users r /\
  tag_directory r ⊆ tag_directory (snd (sync_document_owner_tag self id r)) /\
  (documents (snd (sync_document_owner_tag self id r)) = documents r \/
   exists pre d post u t,
     documents r = pre ++ d :: post /\
     (document_id d ∉ map document_id pre) /\
     document_id d = id /\
     owner_username (user_directory r) d = Some u /\
     tag_directory (snd (sync_document_owner_tag self id r))
       !! get_owner_tag_name self u = Some t /\
     (t ∉ document_tags d) /\
     documents (snd (sync_document_owner_tag self id r))
     = pre ++ with_tags d (document_tags d ++ [t]) :: post /\
     fst (sync_document_owner_tag self id r) = true).
Proof.
  rewrite sync_document_owner_tag_reconcile.
  unfold mbind, M_bind.
  destruct (get_document id r) as [[d|] r1] eqn:Hdoc;
    apply get_document_spec in Hdoc as ((Hd1 & Hu1 & Ht1 & _) & _ & Hfind & _).
  2:{ simpl. split; [exact Hu1|]. split; [|now left].
      unfold tag_directory. now rewrite Ht1. }
  destruct Hfind as [?|Hfind]; [discriminate|]. symmetry in Hfind.
  apply find_document_split in Hfind as (Hid & pre & post & Hdocs & Hpre).
  rewrite <- Hid in Hpre.
  destruct (get_users r1) as [us r2] eqn:Hus.
  apply get_users_spec in Hus as ((Hd2 & Hu2 & Ht2 & _) & _ & Hfetched & _).
  destruct (get_tags r2) as [ts r3] eqn:Hts.
  apply get_tags_spec in Hts as ((Hd3 & Hu3 & Ht3 & _) & _ & Hdir & _).
  destruct (Spec.reconcile self us ts d r3) as [[o ts'] r'] eqn:Hrec.
  assert (Hdocs3 : documents r3 = pre ++ d :: post) by congruence.
  assert (Hdir3 : tag_directory r3 = tag_directory r)
    by (unfold tag_directory; congruence).
  destruct (reconcile_spec self _ _ _ _ _ _ _ _ _ Hrec Hdocs3 Hpre)
    as (Husr & Hpost & Hmono & Hlocal & _).
  assert (Hsub : ts' ⊆ tag_directory r').
  { apply Hlocal. apply fetched_tags_sound.
    unfold tag_directory in *. now rewrite Ht3. }
  destruct (outcome_carried self _ _ _ _ _ _ _ _ _ Hpost Hdocs3 Hsub)
    as (Hsame & _).
  unfold mret, M_ret. simpl.
  split; [congruence|]. split; [now rewrite <- Hdir3|].
  destruct o; try (left; rewrite Hsame by discriminate; congruence).
  right. simpl in Hpost. destruct Hpost as (u & t & Hown & Hname & Hin & E).
  exists pre, d, post, u, t.
  split; [exact Hdocs|]. split; [exact Hpre|]. split; [exact Hid|].
  split.
  { apply (fetched_users_sound _ r1) in Hown; [|exact Hfetched].
    unfold user_directory in *. now rewrite <- Hu1. }
  split; [eauto using lookup_weaken|]. auto.
Qed.

Lemma sync_document_owner_tag_additive (self : PaperlessSync) (r : Remote) id :
  additive self r (snd (sync_document_owner_tag self id r)) /\
  (fst (sync_document_owner_tag self id r) = false ->
   documents (snd (sync_document_owner_tag self id r)) = documents r).
Proof.
  destruct (sync_document_owner_tag_frame self r id)
    as (Husr & _ & [Hsame|(pre & d & post & u & t & Hdocs & _ & _ & Hown & Hname
                           & Hin & Hdocs' & Hok)]).
  - split; [now apply additive_same|auto].
  - split; [|congruence].
    unfold additive. rewrite Hdocs, Hdocs'.
    apply Forall2_app; [apply Forall2_carried_refl|].
    constructor; [|apply Forall2_carried_refl].
    right. exists u, t. unfold user_directory in *. rewrite Husr. auto.
Qed.

(** A document that carries the tag of its owner keeps its tag list,
    whatever becomes of the requests. *)
Lemma sync_document_owner_tag_attached (self : PaperlessSync) (r : Remote)
    id d u t :
  find_document id (documents r) = Some d ->
  owner_username (user_directory r) d = Some u ->
  tag_directory r !! get_owner_tag_name self u = Some t ->
  t ∈ document_tags d ->
  documents (snd (sync_document_owner_tag self id r)) = documents r.
Proof.
  intros Hfind Hown Hname Hin.
  destruct (sync_document_owner_tag_frame self r id)
    as (_ & Hmono & [Hsame|(pre & d' & post & u' & t' & Hdocs & Hpre & Hid
                            & Hown' & Hname' & Hin' & _)]);
    [exact Hsame|].
  rewrite Hdocs, <- Hid, find_document_at in Hfind by exact Hpre.
  injection Hfind as ->.
  assert (u' = u) as -> by congruence.
  rewrite (lookup_weaken _ _ _ _ Hname Hmono) in Hname'.
  injection Hname' as ->. contradiction.
Qed.

Lemma full_sync_additive (self : PaperlessSync) (r : Remote) :
  NoDup (map document_id (documents r)) ->
  additive self r (snd (full_sync self r)).
Proof.
  intros Hnodup. unfold full_sync, mbind, M_bind.
  destruct (get_all_documents r) as [docs r1] eqn:Hdocs.
  apply get_all_documents_spec in Hdocs as ((Hd1 & Hu1 & Ht1 & _) & _ & Hfetch).
  destruct (get_users r1) as [us r2] eqn:Hus.
  apply get_users_spec in Hus as ((Hd2 & Hu2 & Ht2 & _) & _ & Hfetched & _).
  destruct (get_tags r2) as [ts r3] eqn:Hts.
  apply get_tags_spec in Hts as ((Hd3 & Hu3 & Ht3 & _) & _ & Hdir & _).
  destruct docs as [|d docs]; [apply additive_same; simpl; congruence|].
  destruct (documents_fetch_fails r); [discriminate|].
  destruct (full_sync_loop self us (d :: docs) _ ts r3)
    as [[stats ts'] r'] eqn:Hloop.
  destruct (full_sync_loop_additive self us (d :: docs) [] _ _ _ _ _ _ Hloop)
    as (Husr & _ & ds' & Hdocs' & Hall).
  - simpl. congruence.
  - simpl app. now rewrite Hfetch.
  - apply fetched_tags_sound. unfold tag_directory in *. now rewrite Ht3.
  - unfold mret, M_ret, additive. simpl. rewrite Hdocs'. simpl app.
    rewrite <- Hfetch.
    eapply Forall2_impl; [exact Hall|]. intros x y Hcar.
    apply (carried_over_users self us); [|exact Hcar].
    intros u Hu. apply (fetched_users_sound _ r1) in Hu; [|exact Hfetched].
    unfold user_directory in *. now rewrite Husr, Hu3, Hu2.
Qed.

(** C2: a reconciliation never removes a tag from a document.  After a
    single-document run and, on a platform whose documents have distinct
    identifiers, after a batch run, every document is as it was or has
    exactly one identifier more at the end of its tag list: the one the
    platform has for the tag of its owner, which was not in the list
    before.  A single-document run that reports failure leaves every
    tag list as it was. *)
Theorem reconciliation_is_additive (self : PaperlessSync) (r : Remote) :
  (forall id,
     additive self r (snd (sync_document_owner_tag self id r)) /\
     (fst (sync_document_owner_tag self id r) = false ->
      documents (snd (sync_document_owner_tag self id r)) = documents r)) /\
  (NoDup (map document_id (documents r)) ->
   additive self r (snd (full_sync self r))).
Proof.
  split.
  - intros id. apply sync_document_owner_tag_additive.
  - apply full_sync_additive.
Qed.

Lemma reconciliation_is_additive_witness :
  additive Demo.client (Demo.platform [])
    (snd (full_sync Demo.client (Demo.platform []))) /\
  additive Demo.client (Demo.platform [])
    (snd (sync_document_owner_tag Demo.client 11 (Demo.platform []))).
Proof.
  destruct (reconciliation_is_additive Demo.client (Demo.platform []))
    as [Hone Hall].
  split; [|apply Hone].
  apply Hall. apply (bool_decide_unpack _). reflexivity.
Defined.

(** ** Idempotence *)

Section Idempotence.

Variable self : PaperlessSync.

Lemma reconcile_no_owner_eq us ts d r :
  owner_username us d = None ->
  Spec.reconcile self us ts d r = ((Spec.NoOwner, ts), r).
Proof. intros H. unfold Spec.reconcile. now rewrite H. Qed.

Lemma reconcile_already_tagged us ts d r u t :
  owner_username us d = Some u ->
  ts !! get_owner_tag_name self u = Some t ->
  t ∈ document_tags d ->
  Spec.reconcile self us ts d r = ((Spec.AlreadyTagged, ts), r).
Proof.
  intros Hown Hts Hin. unfold Spec.reconcile, Spec.attach.
  rewrite Hown. cbv zeta. rewrite Hts. now rewrite bool_decide_eq_true_2.
Qed.

Lemma reconcile_mapped_missing us ts d r u :
  owner_username us d = Some u ->
  is_Some (owner_tag_mapping self !! u) ->
  ts !! get_owner_tag_name self u = None ->
  Spec.reconcile self us ts d r = ((Spec.MappedTagMissing, ts), r).
Proof.
  intros Hown [n Hmap] Hts. unfold Spec.reconcile.
  rewrite Hown. cbv zeta. now rewrite Hts, Hmap.
Qed.

(** The three reads on a platform that loses no request. *)
Lemma reads_reliable id r :
  reliable r ->
  exists r3,
    reads id r
    = ((find_document id (documents r), user_directory r, tag_directory r), r3)
    /\ same_data r r3 /\ reliable r3.
Proof.
  intros Hr. unfold reads, mbind, M_bind, mret, M_ret.
  destruct (get_document id r) as [o r1] eqn:H1.
  apply get_document_spec in H1 as (Hs1 & _ & _ & Hrel1).
  destruct (Hrel1 Hr) as [-> Hr1].
  destruct (get_users r1) as [us r2] eqn:H2.
  apply get_users_spec in H2 as (Hs2 & _ & _ & Hrel2).
  destruct (Hrel2 Hr1) as [-> Hr2].
  destruct (get_tags r2) as [ts r3] eqn:H3.
  apply get_tags_spec in H3 as (Hs3 & _ & _ & Hrel3).
  destruct (Hrel3 Hr2) as [-> Hr3].
  exists r3. split; [|eauto using same_data_trans].
  destruct Hs1 as (_ & Hu1 & Ht1 & _), Hs2 as (_ & _ & Ht2 & _).
  unfold user_directory, tag_directory. now rewrite Hu1, Ht2, Ht1.
Qed.

Lemma sync_not_found id r :
  reliable r -> find_document id (documents r) = None ->
  exists r', sync_document_owner_tag self id r = (false, r') /\
             same_data r r' /\ reliable r'.
Proof.
  intros Hr Hfind. rewrite sync_document_owner_tag_reconcile.
  unfold mbind, M_bind.
  destruct (get_document id r) as [o r1] eqn:H1.
  apply get_document_spec in H1 as (Hs1 & _ & _ & Hrel1).
  destruct (Hrel1 Hr) as [-> Hr1]. rewrite Hfind. eauto.
Qed.

(** A settled document stays as it is. *)
Lemma settled_stable id r b :
  reliable r -> settled self id r b ->
  exists r', sync_document_owner_tag self id r = (b, r') /\
             same_data r r' /\ reliable r'.
Proof.
  intros Hr Hset. unfold settled in Hset.
  destruct (find_document id (documents r)) as [d|] eqn:Hfind.
  2:{ subst b. now apply sync_not_found. }
  destruct (reads_reliable id r Hr) as (r3 & Hreads & Hsame & Hr3).
  rewrite Hfind in Hreads. exists r3.
  rewrite (sync_after_reads _ _ _ _ _ _ _ Hreads).
  destruct (owner_username (user_directory r) d) as [u|] eqn:Hown.
  - destruct (tag_directory r !! get_owner_tag_name self u) as [t|] eqn:Hts.
    + destruct Hset as [Hin ->].
      now rewrite (reconcile_already_tagged _ _ _ _ _ _ Hown Hts Hin).
    + destruct Hset as [Hmap ->].
      now rewrite (reconcile_mapped_missing _ _ _ _ _ Hown Hmap Hts).
  - subst b. now rewrite (reconcile_no_owner_eq _ _ _ _ Hown).
Qed.

(** On a platform that loses no request a reconciliation settles its
    document. *)
Lemma sync_settles id r :
  reliable r ->
  reliable (snd (sync_document_owner_tag self id r)) /\
  settled self id (snd (sync_document_owner_tag self id r))
    (fst (sync_document_owner_tag self id r)).
Proof.
  intros Hr. unfold settled.
  destruct (find_document id (documents r)) as [d|] eqn:Hfind.
  2:{ destruct (sync_not_found id r Hr Hfind) as (r' & -> & (Hd & _) & Hr').
      simpl. now rewrite Hd, Hfind. }
  destruct (reads_reliable id r Hr) as (r3 & Hreads & Hsame & Hr3).
  rewrite Hfind in Hreads.
  rewrite (sync_after_reads _ _ _ _ _ _ _ Hreads). simpl.
  destruct Hsame as (Hd3 & Hu3 & Ht3 & _).
  assert (Hus : user_directory r3 = user_directory r)
    by (unfold user_directory; now rewrite Hu3).
  assert (Hts : tag_directory r3 = tag_directory r)
    by (unfold tag_directory; now rewrite Ht3).
  apply find_document_split in Hfind as (<- & pre & post & Hdocs & Hpre).
  rewrite <- Hd3 in Hdocs.
  destruct (Spec.reconcile self (user_directory r) (tag_directory r) d r3)
    as [[o ts'] r'] eqn:Hrec. simpl.
  destruct (reconcile_spec self _ _ _ _ _ _ _ _ _ Hrec Hdocs Hpre)
    as (Husr & Hpost & _ & Hlocal & Hrel).
  destruct (Hrel Hr3) as (Hr' & Hupd & Hcre).
  split; [exact Hr'|].
  assert (Hsub : ts' ⊆ tag_directory r') by (apply Hlocal; now rewrite Hts).
  assert (Hus' : user_directory r' = user_directory r)
    by (unfold user_directory in *; now rewrite Husr).
  rewrite Hus'.
  destruct o; simpl in Hpost.
  - destruct Hpost as (Hown & -> & _).
    now rewrite Hdocs, find_document_at, Hown.
  - destruct Hpost as (u & Hown & Hmap & Hnone & -> & _).
    now rewrite Hdocs, find_document_at, Hown, Hts, Hnone.
  - now destruct Hcre.
  - destruct Hpost as (u & t & Hown & Hname & Hin & E).
    rewrite E, Hdocs, find_document_at, Hown by exact Hpre.
    now rewrite (lookup_weaken _ _ _ _ Hname Hsub).
  - destruct Hpost as (u & t & Hown & Hname & Hin & E).
    rewrite E.
    pose proof (find_document_at pre (with_tags d (document_tags d ++ [t]))
                  post Hpre) as F.
    change (document_id (with_tags d (document_tags d ++ [t])))
      with (document_id d) in F.
    rewrite F.
    change (owner_username (user_directory r)
              (with_tags d (document_tags d ++ [t])))
      with (owner_username (user_directory r) d).
    rewrite Hown, (lookup_weaken _ _ _ _ Hname Hsub). simpl.
    split; [|reflexivity]. apply elem_of_app. right. apply list_elem_of_here.
  - now destruct Hupd.
Qed.

Lemma carried_over_NoDup us dir d d' :
  carried_over self us dir d d' ->
  NoDup (document_tags d) -> NoDup (document_tags d').
Proof.
  intros [->|(u & t & _ & _ & Hin & ->)] Hnd; [exact Hnd|].
  simpl. apply NoDup_app. split; [exact Hnd|].
  split; [|apply NoDup_singleton].
  intros x Hx Hx'. apply list_elem_of_singleton in Hx'. now subst.
Qed.

End Idempotence.

(** C3, as stated, fails: with the request for the users lost, a first
    reconciliation of Bob's document reports success and attaches
    nothing; the second, with every request through, attaches tag 7.
    The tag list after the first call is not the one after the second. *)
Lemma reconcile_twice_counterexample :
  fst (sync_document_owner_tag Demo.client 11 (Demo.platform [false; true]))
  = true /\
  document_tags <$>
    find_document 11
      (documents
         (snd (sync_document_owner_tag Demo.client 11
                 (Demo.platform [false; true]))))
  = Some [] /\
  document_tags <$>
    find_document 11
      (documents
         (snd (sync_document_owner_tag Demo.client 11
                 (snd (sync_document_owner_tag Demo.client 11
                         (Demo.platform [false; true]))))))
  = Some [7].
Proof. repeat split. Qed.

(** C3, amended: when the identifier of the owner tag is already in the
    tag list of the document, the reconciliation reports success after
    its three reads and changes nothing.  When no request is lost,
    reconciling a document twice in a row leaves the documents and the
    tags of the platform after the second call as they were after the
    first, and both calls report the same.  No reconciliation, with or
    without lost requests, appends an identifier the tag list already
    holds: a list without duplicates stays without, and a document that
    carries the tag of its owner keeps its tag list in every later
    call. *)
Theorem reconciliation_is_idempotent
    (self : PaperlessSync) (id : Z) (r : Remote) :
  (forall d us ts r3 u t,
     reads id r = ((Some d, us, ts), r3) ->
     owner_username us d = Some u ->
     ts !! get_owner_tag_name self u = Some t ->
     t ∈ document_tags d ->
     sync_document_owner_tag self id r = (true, r3) /\ same_data r r3) /\
  (reliable r ->
   let first := sync_document_owner_tag self id r in
   let second := sync_document_owner_tag self id (snd first) in
   fst second = fst first /\ same_data (snd first) (snd second)) /\
  Forall2 (fun d d' => NoDup (document_tags d) -> NoDup (document_tags d'))
    (documents r) (documents (snd (sync_document_owner_tag self id r))) /\
  (forall d u t,
     find_document id (documents r) = Some d ->
     owner_username (user_directory r) d = Some u ->
     tag_directory r !! get_owner_tag_name self u = Some t ->
     t ∈ document_tags d ->
     documents (snd (sync_document_owner_tag self id r)) = documents r).
Proof.
  split; [|split; [|split]]; [| | |apply sync_document_owner_tag_attached].
  - intros d us ts r3 u t Hreads Hown Hts Hin.
    rewrite (sync_after_reads _ _ _ _ _ _ _ Hreads).
    rewrite (reconcile_already_tagged self _ _ _ _ _ _ Hown Hts Hin).
    split; [reflexivity|]. now apply reads_spec in Hreads.
  - intros Hr first second.
    destruct (sync_settles self id r Hr) as [Hr1 Hset].
    destruct (settled_stable self id _ _ Hr1 Hset) as (r2 & H2 & Hsame & _).
    subst second first. rewrite H2. auto.
  - destruct (sync_document_owner_tag_additive self r id) as [Hadd _].
    eapply Forall2_impl; [exact Hadd|].
    intros d d'. apply carried_over_NoDup.
Qed.

Lemma reconciliation_is_idempotent_witness :
  (let first := sync_document_owner_tag Demo.client 11 (Demo.platform []) in
   let second := sync_document_owner_tag Demo.client 11 (snd first) in
   fst second = fst first /\ same_data (snd first) (snd second)) /\
  (sync_document_owner_tag Demo.client 11 (Demo.tagged [true; true; true])
   = (true, snd (reads 11 (Demo.tagged [true; true; true]))) \/
   sync_document_owner_tag Demo.client 11 (Demo.tagged [])
   = (true, snd (reads 11 (Demo.tagged [])))).
Proof.
  split.
  - apply (proj1 (proj2 (reconciliation_is_idempotent Demo.client 11
                           (Demo.platform [])))).
    constructor.
  - right.
    apply (proj1 (reconciliation_is_idempotent Demo.client 11 (Demo.tagged []))
             (mkDocument 11 "invoice" (Some 3) [7])
             (user_directory (Demo.tagged []))
             (tag_directory (Demo.tagged []))
             (snd (reads 11 (Demo.tagged [])))
             "bob"%string 7);
      [reflexivity|reflexivity|reflexivity|].
    apply list_elem_of_here.
Defined.

(** * Further properties of the client *)

(** ** Request URLs and the identifiers read back from them *)

Section Urls.

Import Py.

Lemma string_app_assoc (a b c : string) : (a +:+ b) +:+ c = a +:+ b +:+ c.
Proof.
  induction a as [|x a IH]; [reflexivity|].
  change (String x ((a +:+ b) +:+ c) = String x (a +:+ b +:+ c)).
  now rewrite IH.
Qed.

Lemma string_length_list (s : string) :
  length (list_ascii_of_string s) = String.length s.
Proof. induction s as [|c s IH]; simpl; [reflexivity|now rewrite IH]. Qed.

Lemma uint_digits (d : Decimal.uint) :
  forallb is_digit (list_ascii_of_string (NilEmpty.string_of_uint d)) = true.
Proof. induction d; simpl; auto. Qed.

Lemma uint_fold (d : Decimal.uint) (acc : Z) :
  fold_left (fun acc c => 10 * acc + digit_value c)
    (list_ascii_of_string (NilEmpty.string_of_uint d)) acc
  = Str.uint_value d acc.
Proof.
  revert acc. induction d; intros acc; simpl; [reflexivity|..];
    rewrite IHd; f_equal;
    match goal with
    | |- context [digit_value ?c] =>
        let v := eval vm_compute in (digit_value c) in
        change (digit_value c) with v
    end; lia.
Qed.

Lemma uint_value_acc (d : Decimal.uint) (acc : positive) :
  Str.uint_value d (Z.pos acc) = Z.pos (Pos.of_uint_acc d acc).
Proof.
  revert acc. induction d; intros acc; simpl; [reflexivity|..];
    rewrite <- IHd; f_equal; lia.
Qed.

Lemma uint_value_of_uint (d : Decimal.uint) :
  Str.uint_value d 0 = Z.of_N (Pos.of_uint d).
Proof.
  induction d; simpl; try reflexivity; try exact IHd;
    apply (uint_value_acc d).
Qed.

(** [int(str(z)) == z] for a number that is not negative. *)
Lemma int_of_digits_of_int (z : Z) :
  0 <= z ->
  Str.of_int z <> ""%string /\
  forallb is_digit (list_ascii_of_string (Str.of_int z)) = true /\
  int_of_digits (list_ascii_of_string (Str.of_int z)) = z.
Proof.
  intros Hz. destruct z as [|p|p]; [repeat split; discriminate| |lia].
  unfold Str.of_int. simpl.
  pose proof (Unsigned.to_uint_nonnil p) as Hnil.
  unfold NilZero.string_of_uint.
  destruct (Pos.to_uint p) as [|d|d|d|d|d|d|d|d|d|d] eqn:E; [congruence|..];
    rewrite <- E; (split; [rewrite E; discriminate|]);
    (split; [apply uint_digits|]);
    unfold int_of_digits; rewrite uint_fold, uint_value_of_uint;
    now rewrite Unsigned.of_to.
Qed.

End Urls.

Lemma api_document_url_shape (base_url : string) (document_id : Z) :
  api_document_url base_url document_id
  = (base_url_of base_url +:+ "/api") +:+ "/documents/" +:+
    Str.of_int document_id +:+ string_of_list_ascii [Py.slash].
Proof. unfold api_document_url. now rewrite string_app_assoc. Qed.

(** X1: the URL the client builds for a document, and the address of the
    document in the web interface, are read back by
    [extract_document_id_from_url] as the identifier they were built
    from, for every identifier that is not negative and that [int] does
    not refuse for its length. *)
Theorem extract_api_document_url
    (max_str_digits : nat) (base_url : string) (document_id : Z) :
  0 <= document_id ->
  Py.conversion_refused max_str_digits
    (String.length (Str.of_int document_id)) = false ->
  extract_document_id_from_url max_str_digits
    (JString (api_document_url base_url document_id)) = Some document_id /\
  extract_document_id_from_url max_str_digits
    (JString (base_url +:+ "/documents/" +:+ Str.of_int document_id +:+ "/"))
  = Some document_id.
Proof.
  intros Hid Hlen.
  destruct (int_of_digits_of_int document_id Hid) as (Hne & Hdigits & Hval).
  assert (Hint : Py.int max_str_digits
                   (list_ascii_of_string (Str.of_int document_id))
                 = Some document_id).
  { unfold Py.int. now rewrite string_length_list, Hlen, Hval. }
  split; simpl.
  - rewrite api_document_url_shape.
    now rewrite extract_documents_tail.
  - change "/"%string with (string_of_list_ascii [Py.slash]).
    now rewrite extract_documents_tail.
Qed.

Lemma extract_api_document_url_witness :
  extract_document_id_from_url 4300
    (JString (api_document_url "http://localhost:8000/" 55)) = Some 55.
Proof.
  apply (extract_api_document_url 4300 "http://localhost:8000/" 55);
    [lia|reflexivity].
Defined.

Section Rstrip.

Lemma lstrip_head c l a l' : Str.lstrip c l = a :: l' -> a <> c.
Proof.
  induction l as [|b l IH]; simpl; [discriminate|].
  destruct (Ascii.eqb_spec b c) as [->|Hne]; [exact IH|].
  intros [= <- _]. exact Hne.
Qed.

Lemma lstrip_idem c l : Str.lstrip c (Str.lstrip c l) = Str.lstrip c l.
Proof.
  induction l as [|b l IH]; simpl; [reflexivity|].
  destruct (Ascii.eqb_spec b c) as [->|Hne]; [exact IH|].
  simpl. now destruct (Ascii.eqb_spec b c).
Qed.

Lemma rstrip_snoc c s : Str.rstrip c (s +:+ String c "") = Str.rstrip c s.
Proof.
  unfold Str.rstrip. rewrite list_ascii_of_string_app, rev_app_distr. simpl.
  now rewrite Ascii.eqb_refl.
Qed.

Lemma rstrip_idem c s : Str.rstrip c (Str.rstrip c s) = Str.rstrip c s.
Proof.
  unfold Str.rstrip.
  now rewrite list_ascii_of_string_of_list_ascii, rev_involutive, lstrip_idem.
Qed.

Lemma rstrip_end c s t : Str.rstrip c s <> t +:+ String c "".
Proof.
  unfold Str.rstrip. intros E.
  apply (f_equal list_ascii_of_string) in E.
  rewrite list_ascii_of_string_of_list_ascii, list_ascii_of_string_app in E.
  apply (f_equal (@rev ascii)) in E.
  rewrite rev_involutive, rev_app_distr in E. simpl in E.
  now apply lstrip_head in E.
Qed.

Lemma string_of_list_ascii_app (a b : list ascii) :
  string_of_list_ascii (a ++ b)
  = string_of_list_ascii a +:+ string_of_list_ascii b.
Proof.
  induction a as [|x a IH]; [reflexivity|].
  change (String x (string_of_list_ascii (a ++ b))
          = String x (string_of_list_ascii a +:+ string_of_list_ascii b)).
  now rewrite IH.
Qed.

Lemma rev_repeat {A} (x : A) k : rev (repeat x k) = repeat x k.
Proof.
  induction k as [|k IH]; [reflexivity|]. simpl. rewrite IH. clear IH.
  induction k as [|k IH]; [reflexivity|]. simpl. now rewrite IH.
Qed.

Lemma lstrip_run c l : exists k, l = repeat c k ++ Str.lstrip c l.
Proof.
  induction l as [|b l [k IH]]; [now exists O|]. simpl.
  destruct (Ascii.eqb_spec b c) as [->|Hne]; [|now exists O].
  exists (S k). simpl. now rewrite <- IH.
Qed.

(** What [rstrip] took away is a run of the character. *)
Lemma rstrip_run c s :
  exists k, s = Str.rstrip c s +:+ string_of_list_ascii (repeat c k).
Proof.
  unfold Str.rstrip. set (R := rev (list_ascii_of_string s)).
  destruct (lstrip_run c R) as [k Hk]. exists k.
  assert (Hs : s = string_of_list_ascii (rev R))
    by (unfold R; now rewrite rev_involutive, string_of_list_ascii_of_string).
  rewrite Hs at 1. rewrite Hk at 1.
  now rewrite rev_app_distr, rev_repeat, string_of_list_ascii_app.
Qed.

End Rstrip.

(** X2: the client keeps the configured address without the slashes it
    ends with, and nothing else is taken away: the kept address never
    ends with a slash, keeping is idempotent, and an address given with
    one slash more leads to the same request URLs. *)
Theorem base_url_without_trailing_slashes (base_url : string) :
  (exists k, base_url
             = base_url_of base_url +:+ string_of_list_ascii (repeat Py.slash k)) /\
  (forall s, base_url_of base_url <> s +:+ "/") /\
  base_url_of (base_url_of base_url) = base_url_of base_url /\
  base_url_of (base_url +:+ "/") = base_url_of base_url /\
  (forall document_id,
     api_document_url (base_url +:+ "/") document_id
     = api_document_url base_url document_id).
Proof.
  unfold api_document_url, base_url_of.
  split; [apply rstrip_run|]. split; [apply rstrip_end|].
  split; [apply rstrip_idem|].
  split; [apply (rstrip_snoc Py.slash)|].
  intros document_id.
  change "/"%string with (String Py.slash "") at 1. now rewrite rstrip_snoc.
Qed.

(** ** Identifiers out of URLs, and what the webhook does with them *)

Lemma match_document_id_inv s ds :
  Py.match_document_id s = Some ds -> forallb Py.is_digit ds = true.
Proof.
  unfold Py.match_document_id.
  destruct (Py.strip_prefix _ s) as [rest|]; [|discriminate].
  destruct (Py.span_digits rest) as [run tl] eqn:Hs.
  apply span_digits_inv in Hs as (_ & Hd & _). simpl.
  destruct run; [discriminate|]. now intros [= <-].
Qed.

Lemma digit_value_range c :
  Py.is_digit c = true -> 0 <= Py.digit_value c <= 9.
Proof.
  unfold Py.is_digit, Py.digit_value. intros H.
  apply andb_true_iff in H as [H1 H2].
  apply Nat.leb_le in H1, H2. lia.
Qed.

Lemma int_of_digits_nonneg ds :
  forallb Py.is_digit ds = true -> 0 <= Py.int_of_digits ds.
Proof.
  unfold Py.int_of_digits.
  assert (H : forall acc, 0 <= acc -> forallb Py.is_digit ds = true ->
              0 <= fold_left (fun acc c => 10 * acc + Py.digit_value c) ds acc).
  { induction ds as [|c ds IH]; intros acc Hacc Hd; simpl in *; [exact Hacc|].
    apply andb_true_iff in Hd as [Hc Hd].
    pose proof (digit_value_range c Hc). apply IH; [lia|exact Hd]. }
  apply H. lia.
Qed.

(** X3: an identifier read out of a URL is never negative, whichever of
    the two patterns it comes from. *)
Theorem extracted_id_not_negative
    (max_str_digits : nat) (url : JSON) (document_id : Z) :
  extract_document_id_from_url max_str_digits url = Some document_id ->
  0 <= document_id.
Proof.
  destruct url as [| | |s| |]; simpl; try discriminate.
  unfold extract_from_str, Py.int.
  destruct (Py.re_search Py.match_documents _) as [g|] eqn:E1.
  - apply re_search_found in E1 as (p & s' & _ & Hm).
    apply match_documents_inv in Hm as (tl & _ & _ & Hd & _).
    destruct (Py.conversion_refused _ _); [discriminate|].
    intros [= <-]. now apply int_of_digits_nonneg.
  - destruct (Py.re_search Py.match_document_id _) as [g|] eqn:E2;
      [|discriminate].
    apply re_search_found in E2 as (p & s' & _ & Hm).
    apply match_document_id_inv in Hm.
    destruct (Py.conversion_refused _ _); [discriminate|].
    intros [= <-]. now apply int_of_digits_nonneg.
Qed.

Lemma extracted_id_not_negative_witness :
  0 <= 77.
Proof.
  apply (extracted_id_not_negative 4300
           (JString "https://host/api?document_id=77") 77).
  reflexivity.
Defined.

(** X4: whatever the body of the request, the webhook answers 200, 400 or
    500, and it either leaves the platform alone, reconciling nothing, or
    reconciles one document with an identifier above 0 and answers with
    the outcome of that reconciliation; an answer of 400 always comes
    with the platform untouched. *)
Theorem webhook_reconciles_positive_ids_only
    (max_str_digits : nat) (sync_client : PaperlessSync) (request : GetJson)
    (r : Remote) :
  (status (fst (document_webhook max_str_digits sync_client request r)) = 200 \/
   status (fst (document_webhook max_str_digits sync_client request r)) = 400 \/
   status (fst (document_webhook max_str_digits sync_client request r)) = 500) /\
  (snd (document_webhook max_str_digits sync_client request r) = r \/
   exists document_id,
     0 < document_id /\
     document_webhook max_str_digits sync_client request r
     = (processed_response document_id
          (fst (sync_document_owner_tag sync_client document_id r)),
        snd (sync_document_owner_tag sync_client document_id r))) /\
  (status (fst (document_webhook max_str_digits sync_client request r)) = 400 ->
   snd (document_webhook max_str_digits sync_client request r) = r).
Proof.
  unfold document_webhook.
  destruct request as [message|data]; [simpl; auto|].
  destruct (truthy data) eqn:Ht; simpl; [|auto].
  destruct data as [| | | | |fields]; simpl; auto.
  destruct (truthy (dict_get "url" fields)); simpl; [|auto].
  destruct (extract_document_id_from_url _ _) as [document_id|] eqn:He;
    [|simpl; auto].
  apply extracted_id_not_negative in He as Hpos.
  destruct (Z.eqb_spec document_id 0) as [->|Hne]; [simpl; auto|].
  unfold mbind, M_bind, mret, M_ret.
  destruct (sync_document_owner_tag sync_client document_id r)
    as [[|] r'] eqn:E;
    simpl; (split; [auto|]); (split; [|discriminate]);
    right; exists document_id; rewrite E; (split; [lia|reflexivity]).
Qed.

(** ** The directories the client builds *)

Lemma dict_of_last {K V X} `{Countable K} (key : X -> K) (value : X -> V)
    (same : X -> bool) (k : K) (l : list X) :
  (forall x, same x = true <-> key x = k) ->
  dict_of key value l !! k = value <$> last (List.filter same l).
Proof.
  intros Hsame. induction l as [|x l IH] using rev_ind.
  - apply lookup_empty.
  - rewrite dict_of_snoc, List.filter_app. simpl.
    destruct (same x) eqn:E.
    + apply Hsame in E as <-. now rewrite lookup_insert_eq, last_snoc.
    + assert (key x <> k) by (intros Hk; apply Hsame in Hk; congruence).
      now rewrite lookup_insert_ne, app_nil_r.
Qed.

(** X5: the dicts of users and of tags are built entry by entry, so of
    two entries of an answer with the same key the later one is the one
    the client goes by; a lost request reads as a directory without any
    key. *)
Theorem directories_keep_last_entry (r : Remote) :
  (forall id : Z,
     fst (get_users r) !! id =
     if hd false (outages r) then None
     else username <$>
            last (List.filter (fun u => Z.eqb (user_id u) id) (users r))) /\
  (forall name : string,
     fst (get_tags r) !! name =
     if hd false (outages r) then None
     else tag_id <$>
            last (List.filter (fun t => String.eqb (tag_name t) name) (tags r))).
Proof.
  split; intros k.
  - unfold get_users, send, mbind, M_bind, gets, mret, M_ret.
    destruct (outages r) as [|[|] later]; simpl;
      try apply lookup_empty;
      apply dict_of_last; intros u; apply Z.eqb_eq.
  - unfold get_tags, send, mbind, M_bind, gets, mret, M_ret.
    destruct (outages r) as [|[|] later]; simpl;
      try apply lookup_empty;
      apply dict_of_last; intros t; apply String.eqb_eq.
Qed.

(** ** The pages of the document collection *)

Lemma get_all_documents_loop_requests pages :
  forall page acc r,
    same_data r (snd (get_all_documents_loop page pages acc r)) /\
    match list_find (fun down => down = true)
            (take (length pages) (outages r)) with
    | Some (k, _) =>
        fst (get_all_documents_loop page pages acc r) = [] /\
        sent (snd (get_all_documents_loop page pages acc r))
        = sent r ++ map GetDocuments (seq page (S k)) /\
        outages (snd (get_all_documents_loop page pages acc r))
        = drop (S k) (outages r)
    | None =>
        fst (get_all_documents_loop page pages acc r) = acc ++ concat pages /\
        sent (snd (get_all_documents_loop page pages acc r))
        = sent r ++ map GetDocuments (seq page (length pages)) /\
        outages (snd (get_all_documents_loop page pages acc r))
        = drop (length pages) (outages r)
    end.
Proof.
  induction pages as [|results next IH]; intros page acc r.
  - simpl. split; [apply same_data_refl|]. now rewrite !app_nil_r.
  - simpl get_all_documents_loop. unfold mbind, M_bind.
    destruct (send (GetDocuments page) r) as [ok r1] eqn:Hs.
    apply send_spec in Hs as (Hsame & Hsent & Hout & Hok).
    specialize (IH (S page) (acc ++ results) r1).
    destruct IH as [Hsame' IH]. rewrite Hout, Hsent in IH.
    destruct (outages r) as [|down later]; simpl in Hok; subst ok.
    + simpl in *. split; [eauto using same_data_trans|].
      rewrite take_nil in IH. simpl in IH.
      destruct IH as (-> & -> & ->).
      now rewrite <- !app_assoc, drop_nil.
    + destruct down; simpl.
      * split; [exact Hsame|]. rewrite Hsent, Hout. auto.
      * split; [eauto using same_data_trans|]. simpl in IH.
        destruct (list_find _ (take (length next) later)) as [[k b]|];
          simpl; destruct IH as (-> & -> & ->); now rewrite <- !app_assoc.
Qed.

Lemma get_all_documents_pages (r : Remote) :
  same_data r (snd (get_all_documents r)) /\
  match list_find (fun down => down = true)
          (take (page_count r) (outages r)) with
  | Some (k, _) =>
      documents_fetch_fails r = true /\
      fst (get_all_documents r) = [] /\
      sent (snd (get_all_documents r))
      = sent r ++ map GetDocuments (seq 1 (S k)) /\
      outages (snd (get_all_documents r)) = drop (S k) (outages r)
  | None =>
      documents_fetch_fails r = false /\
      fst (get_all_documents r) = documents r /\
      sent (snd (get_all_documents r))
      = sent r ++ map GetDocuments (seq 1 (page_count r)) /\
      outages (snd (get_all_documents r)) = drop (page_count r) (outages r)
  end.
Proof.
  unfold get_all_documents, mbind, M_bind, gets, documents_fetch_fails,
    page_count.
  destruct (get_all_documents_loop_requests
              (paginate (page_size r) (page_size r) (documents r)) 1 [] r)
    as [Hsame H].
  split; [exact Hsame|].
  destruct (list_find _ _) as [[k b]|] eqn:Hfind.
  - split; [|exact H].
    apply list_find_Some in Hfind as (Hk & -> & _).
    apply existsb_exists. exists true. split; [|reflexivity].
    apply list_elem_of_In. eapply list_elem_of_lookup_2. exact Hk.
  - rewrite concat_paginate in H. split; [|exact H].
    apply list_find_None in Hfind.
    apply not_true_is_false. intros Hex.
    apply existsb_exists in Hex as (b & Hin & ->).
    apply list_elem_of_In in Hin.
    rewrite Forall_forall in Hfind. now apply (Hfind true).
Qed.

(** X6: the collection is fetched page by page, and all or nothing.  When
    none of the page requests is lost, the client sends one request for
    each page and holds every document of the platform, in the order of
    the platform; when one is lost, it stops at that request, asks for no
    further page and holds no document at all, whatever the pages before
    brought.  Either way the platform is left as it was. *)
Theorem get_all_documents_all_or_nothing (r : Remote) :
  same_data r (snd (get_all_documents r)) /\
  match list_find (fun down => down = true)
          (take (page_count r) (outages r)) with
  | Some (k, _) =>
      documents_fetch_fails r = true /\
      fst (get_all_documents r) = [] /\
      sent (snd (get_all_documents r))
      = sent r ++ map GetDocuments (seq 1 (S k)) /\
      outages (snd (get_all_documents r)) = drop (S k) (outages r)
  | None =>
      documents_fetch_fails r = false /\
      fst (get_all_documents r) = documents r /\
      sent (snd (get_all_documents r))
      = sent r ++ map GetDocuments (seq 1 (page_count r)) /\
      outages (snd (get_all_documents r)) = drop (page_count r) (outages r)
  end.
Proof. apply get_all_documents_pages. Qed.

(** ** What is written can be read back *)




(** ** What a run leaves of the platform, and what it sends *)

Section Trace.

Variable self : PaperlessSync.

Lemma patch_tags_without_tags id l docs :
  map without_tags (patch_tags id l docs) = map without_tags docs.
Proof.
  induction docs as [|d docs IH]; simpl; [reflexivity|].
  destruct (Z.eqb (document_id d) id); simpl; [reflexivity|now rewrite IH].
Qed.

Lemma dict_of_elem {K V X} `{Countable K} (key : X -> K) (value : X -> V)
    (l : list X) (k : K) (v : V) :
  dict_of key value l !! k = Some v ->
  exists x, x ∈ l /\ key x = k /\ value x = v.
Proof.
  induction l as [|x l IH] using rev_ind.
  - unfold dict_of. simpl. now rewrite lookup_empty.
  - rewrite dict_of_snoc. destruct (decide (key x = k)) as [<-|Hne].
    + rewrite lookup_insert_eq. intros [= <-]. exists x.
      split; [|auto]. apply elem_of_app. right. apply list_elem_of_here.
    + rewrite lookup_insert_ne by exact Hne. intros Hl.
      destruct (IH Hl) as (y & Hin & Hk & Hv). exists y.
      split; [|auto]. apply elem_of_app. now left.
Qed.

Lemma owner_username_listed (us : gmap Z string) r d u :
  us = ∅ \/ us = user_directory r ->
  owner_username us d = Some u -> u ∈ map username (users r).
Proof.
  intros Hus Hown. apply (fetched_users_sound _ r) in Hown; [|exact Hus].
  unfold owner_username in Hown.
  destruct (document_owner d) as [o|]; [|discriminate].
  destruct (Z.eqb o 0); [discriminate|].
  apply dict_of_elem in Hown as (x & Hin & _ & <-).
  now apply list_elem_of_fmap_2.
Qed.

(** One reconciliation, step by step: the requests it sends, the tag it
    may create, and what it leaves alone. *)
Lemma reconcile_trace us ts d r o ts' r' :
  Spec.reconcile self us ts d r = ((o, ts'), r') ->
  users r' = users r /\
  map without_tags (documents r') = map without_tags (documents r) /\
  exists posts patches created,
    sent r' = sent r ++ posts ++ patches /\
    tags r' = tags r ++ created /\
    ((posts = [] /\ created = [] /\ ts' = ts) \/
     exists u,
       owner_username us d = Some u /\
       owner_tag_mapping self !! u = None /\
       ts !! (tag_prefix self +:+ u) = None /\
       posts = [PostTag (tag_prefix self +:+ u)] /\
       ((created = [] /\ ts' = ts /\ patches = [] /\
         o = Spec.TagCreateFailed) \/
        exists t,
          tag_directory r !! (tag_prefix self +:+ u) = None /\
          created = [mkTag (tag_prefix self +:+ u) t] /\
          ts' = <[tag_prefix self +:+ u := t]> ts)) /\
    (patches = [] \/
     exists t,
       (t ∉ document_tags d) /\
       patches = [PatchDocument (document_id d) (document_tags d ++ [t])]) /\
    (reliable r -> ts = tag_directory r ->
     reliable r' /\ ts' = tag_directory r' /\ length created = length posts).
Proof.
  assert (Hattach : forall ts0 t r0 o0 ts1 r1,
    Spec.attach d ts0 t r0 = ((o0, ts1), r1) ->
    ts1 = ts0 /\ users r1 = users r0 /\ tags r1 = tags r0 /\
    map without_tags (documents r1) = map without_tags (documents r0) /\
    (exists patches, sent r1 = sent r0 ++ patches /\
       (patches = [] \/
        exists t, (t ∉ document_tags d) /\
          patches = [PatchDocument (document_id d) (document_tags d ++ [t])])) /\
    (reliable r0 -> reliable r1)).
  { intros ts0 t r0 o0 ts1 r1 H. unfold Spec.attach, mbind, M_bind in H.
    case_bool_decide as Hin.
    - injection H as <- <- <-. repeat (split; [reflexivity|]).
      split; [|auto]. exists []. rewrite app_nil_r. auto.
    - destruct (update_document_tags _ _ r0) as [ok r2] eqn:Hu.
      injection H as <- <- <-.
      apply update_document_tags_spec in Hu as (Husr & Htag & Hsent & Hcase & Hrel).
      split; [reflexivity|]. split; [exact Husr|]. split; [exact Htag|].
      split; [|split].
      + destruct Hcase as [[_ ->]|(_ & _ & ->)];
          [reflexivity|apply patch_tags_without_tags].
      + exists [PatchDocument (document_id d) (document_tags d ++ [t])].
        split; [exact Hsent|]. right. eauto.
      + intros Hr. apply (Hrel Hr). }
  intros H. unfold Spec.reconcile in H.
  destruct (owner_username us d) as [u|] eqn:Hown.
  2:{ injection H as <- <- <-. repeat (split; [reflexivity|]).
      exists [], [], []. rewrite !app_nil_r. repeat (split; auto). }
  cbv zeta in H.
  destruct (ts !! get_owner_tag_name self u) as [t|] eqn:Hts.
  { apply Hattach in H as (-> & Husr & Htag & Hdocs & (patches & Hsent & Hp) & Hrel).
    split; [exact Husr|]. split; [exact Hdocs|].
    exists [], patches, []. rewrite app_nil_r. simpl.
    split; [exact Hsent|]. split; [exact Htag|]. split; [auto|].
    split; [exact Hp|]. intros Hr ->. split; [auto|]. split; [|reflexivity].
    unfold tag_directory. now rewrite Htag. }
  destruct (owner_tag_mapping self !! u) as [mapped|] eqn:Hmap.
  { injection H as <- <- <-. repeat (split; [reflexivity|]).
    exists [], [], []. rewrite !app_nil_r. repeat (split; auto). }
  assert (Hname : get_owner_tag_name self u = tag_prefix self +:+ u)
    by (unfold get_owner_tag_name; now rewrite Hmap).
  rewrite Hname in *.
  unfold mbind, M_bind in H.
  destruct (create_tag _ r) as [made r1] eqn:Hc.
  apply create_tag_spec in Hc as (Hd1 & Hu1 & Hs1 & Hcase1 & Hrel1).
  destruct Hcase1 as [[-> Ht1]|(i & -> & Hnone & Ht1 & Hdir1)].
  - injection H as <- <- <-.
    split; [exact Hu1|]. split; [now rewrite Hd1|].
    exists [PostTag (tag_prefix self +:+ u)], [], [].
    rewrite !app_nil_r. split; [exact Hs1|]. split; [exact Ht1|].
    split; [right; exists u; auto 10|]. split; [auto|].
    intros Hr ->. destruct (Hrel1 Hr) as [_ Hsome]. now destruct Hsome.
  - change (Z.eqb (Z.pos i) 0) with false in H. cbv iota in H.
    apply Hattach in H as (-> & Husr & Htag & Hdocs & (patches & Hsent & Hp) & Hrel).
    split; [congruence|]. split; [now rewrite Hdocs, Hd1|].
    exists [PostTag (tag_prefix self +:+ u)], patches,
      [mkTag (tag_prefix self +:+ u) (Z.pos i)].
    split; [now rewrite Hsent, Hs1, <- app_assoc|].
    split; [now rewrite Htag, Ht1|].
    split; [right; exists u; eauto 12|]. split; [exact Hp|].
    intros Hr ->. destruct (Hrel1 Hr) as [Hr1 _].
    split; [auto|]. split; [|reflexivity].
    rewrite <- Hdir1. unfold tag_directory. now rewrite Htag.
Qed.

End Trace.

Lemma sync_document_owner_tag_trace (self : PaperlessSync) (id : Z)
    (r : Remote) :
  users (snd (sync_document_owner_tag self id r)) = users r /\
  map without_tags (documents (snd (sync_document_owner_tag self id r)))
  = map without_tags (documents r) /\
  ((fst (sync_document_owner_tag self id r) = false /\
    tags (snd (sync_document_owner_tag self id r)) = tags r /\
    sent (snd (sync_document_owner_tag self id r))
    = sent r ++ [GetDocument id]) \/
   exists d posts patches created,
     find_document id (documents r) = Some d /\
     sent (snd (sync_document_owner_tag self id r))
     = sent r ++ [GetDocument id; GetUsers; GetTags] ++ posts ++ patches /\
     tags (snd (sync_document_owner_tag self id r)) = tags r ++ created /\
     ((posts = [] /\ created = []) \/
      exists u,
        unmapped_user self r u /\
        posts = [PostTag (tag_prefix self +:+ u)] /\
        (created = [] \/
         exists t,
           tag_directory r !! (tag_prefix self +:+ u) = None /\
           created = [mkTag (tag_prefix self +:+ u) t])) /\
     (patches = [] \/
      exists t,
        (t ∉ document_tags d) /\
        patches = [PatchDocument id (document_tags d ++ [t])])).
Proof.
  rewrite sync_document_owner_tag_reconcile. unfold mbind, M_bind.
  destruct (get_document id r) as [[d|] r1] eqn:Hdoc;
    apply get_document_spec in Hdoc
      as ((Hd1 & Hu1 & Ht1 & _) & Hs1 & Hfind & _).
  2:{ simpl. split; [exact Hu1|]. split; [now rewrite Hd1|]. left. auto. }
  destruct Hfind as [?|Hfind]; [discriminate|]. symmetry in Hfind.
  pose proof (find_document_split _ _ _ Hfind) as (Hid & _).
  destruct (get_users r1) as [us r2] eqn:Hus.
  apply get_users_spec in Hus as ((Hd2 & Hu2 & Ht2 & _) & Hs2 & Hfetched & _).
  destruct (get_tags r2) as [ts r3] eqn:Hts.
  apply get_tags_spec in Hts as ((Hd3 & Hu3 & Ht3 & _) & Hs3 & Hdir & _).
  destruct (Spec.reconcile self us ts d r3) as [[o ts'] r'] eqn:Hrec.
  apply reconcile_trace in Hrec
    as (Husr & Hdocs & posts & patches & created & Hsent & Htags & Hposts
        & Hpatches & _).
  unfold mret, M_ret. simpl.
  split; [congruence|]. split; [congruence|]. right.
  exists d, posts, patches, created.
  split; [exact Hfind|].
  split; [now rewrite Hsent, Hs3, Hs2, Hs1, <- !app_assoc|].
  split; [congruence|]. rewrite <- Hid. split; [|exact Hpatches].
  assert (Hlisted : forall u, owner_username us d = Some u ->
                              u ∈ map username (users r)).
  { intros u Hown. rewrite <- Hu1.
    now apply (owner_username_listed us r1 d). }
  assert (Hdir3 : tag_directory r3 = tag_directory r)
    by (unfold tag_directory; congruence).
  destruct Hposts as [(-> & -> & _)|(u & Hown & Hmap & _ & -> & Hmade)];
    [now left|].
  right. exists u. split; [split; auto|]. split; [reflexivity|].
  destruct Hmade as [(-> & _)|(t & Hnone & -> & _)]; [now left|].
  right. exists t. rewrite <- Hdir3. auto.
Qed.

(** X9: a run for one document changes nothing of the platform but tag
    lists and tags.  The users are as they were; the documents are the
    same ones in the same order, each with its identifier, title and
    owner; and the tags are as they were or one more at the end: a tag
    named by the prefix and the username of a user of the platform who
    has no entry in the mapping, under a name no tag had before.  No tag
    is removed or renamed. *)
Theorem sync_document_owner_tag_touches_tags_only
    (self : PaperlessSync) (id : Z) (r : Remote) :
  users (snd (sync_document_owner_tag self id r)) = users r /\
  map without_tags (documents (snd (sync_document_owner_tag self id r)))
  = map without_tags (documents r) /\
  (tags (snd (sync_document_owner_tag self id r)) = tags r \/
   exists u t,
     unmapped_user self r u /\
     tag_directory r !! (tag_prefix self +:+ u) = None /\
     tags (snd (sync_document_owner_tag self id r))
     = tags r ++ [mkTag (tag_prefix self +:+ u) t]).
Proof.
  destruct (sync_document_owner_tag_trace self id r)
    as (Husr & Hdocs & [(_ & Htags & _)|(d & posts & patches & created & _ & _
                                          & Htags & Hposts & _)]).
  - auto.
  - split; [exact Husr|]. split; [exact Hdocs|]. rewrite Htags.
    destruct Hposts as [(_ & ->)|(u & Hu & _ & [->|(t & Hnone & ->)])];
      [left; apply app_nil_r|left; apply app_nil_r|].
    right. exists u, t. auto.
Qed.

(** X11: a run for one document sends at most five requests, in this
    order: the fetch of the document; when the document arrived, the
    fetches of the users and of the tags; then at most one creation of a
    tag, under the prefix and the username of a user without an entry in
    the mapping; then at most one update, of the document the run is
    for, with the tag list it was fetched with and one identifier more
    at its end.  A run that stops after the first request reports
    failure. *)
Theorem sync_document_owner_tag_requests
    (self : PaperlessSync) (id : Z) (r : Remote) :
  exists rest,
    sent (snd (sync_document_owner_tag self id r))
    = sent r ++ GetDocument id :: rest /\
    (length rest <= 4)%nat /\
    ((rest = [] /\ fst (sync_document_owner_tag self id r) = false) \/
     exists d posts patches,
       find_document id (documents r) = Some d /\
       rest = [GetUsers; GetTags] ++ posts ++ patches /\
       (posts = [] \/
        exists u,
          unmapped_user self r u /\
          posts = [PostTag (tag_prefix self +:+ u)]) /\
       (patches = [] \/
        exists t,
          (t ∉ document_tags d) /\
          patches = [PatchDocument id (document_tags d ++ [t])])).
Proof.
  destruct (sync_document_owner_tag_trace self id r)
    as (_ & _ & [(Hfalse & _ & Hsent)|(d & posts & patches & created & Hfind
                                        & Hsent & _ & Hposts & Hpatches)]).
  - exists []. split; [exact Hsent|]. split; [simpl; lia|]. now left.
  - exists ([GetUsers; GetTags] ++ posts ++ patches).
    split; [exact Hsent|].
    assert (Hp : posts = [] \/
                 exists u, unmapped_user self r u /\
                           posts = [PostTag (tag_prefix self +:+ u)]).
    { destruct Hposts as [(-> & _)|(u & Hu & -> & _)]; [now left|].
      right. exists u. auto. }
    split.
    + destruct Hp as [->|(u & _ & ->)];
        destruct Hpatches as [->|(t & _ & ->)]; simpl; lia.
    + right. exists d, posts, patches. auto.
Qed.

Section BatchTrace.

Variable self : PaperlessSync.

Lemma reconcile_writes us ts d r o ts' r' :
  Spec.reconcile self us ts d r = ((o, ts'), r') ->
  users r' = users r /\
  map without_tags (documents r') = map without_tags (documents r) /\
  exists writes created,
    sent r' = sent r ++ writes /\
    tags r' = tags r ++ created /\
    forallb is_write writes = true /\
    (length (List.filter is_post writes) <= 1)%nat /\
    (length (List.filter is_patch writes) <= 1)%nat /\
    (length created <= length (List.filter is_post writes))%nat /\
    Forall (fun t => exists u, owner_username us d = Some u /\
                               owner_tag_mapping self !! u = None /\
                               tag_name t = tag_prefix self +:+ u) created /\
    (reliable r -> ts = tag_directory r ->
     reliable r' /\ ts' = tag_directory r' /\
     length (List.filter is_post writes) = length created).
Proof.
  intros H. apply reconcile_trace in H
    as (Husr & Hdocs & posts & patches & created & Hsent & Htags & Hposts
        & Hpatches & Hrel).
  split; [exact Husr|]. split; [exact Hdocs|].
  exists (posts ++ patches), created.
  split; [exact Hsent|]. split; [exact Htags|].
  assert (Hc : Forall (fun t => exists u, owner_username us d = Some u /\
                               owner_tag_mapping self !! u = None /\
                               tag_name t = tag_prefix self +:+ u) created).
  { destruct Hposts as [(_ & -> & _)|(u & Hown & Hmap & _ & _ & Hmade)];
      [constructor|].
    destruct Hmade as [(-> & _)|(t & _ & -> & _)]; constructor; eauto. }
  assert (Hlen : (length created <= length posts)%nat).
  { destruct Hposts as [(-> & -> & _)|(u & _ & _ & _ & -> & Hmade)];
      [simpl; lia|].
    destruct Hmade as [(-> & _)|(t & _ & -> & _)]; simpl; lia. }
  assert (Hp : List.filter is_post (posts ++ patches) = posts /\
               List.filter is_patch (posts ++ patches) = patches /\
               forallb is_write (posts ++ patches) = true /\
               (length posts <= 1)%nat /\ (length patches <= 1)%nat).
  { destruct Hposts as [(-> & _)|(u & _ & _ & _ & -> & _)];
      destruct Hpatches as [->|(t & _ & ->)]; simpl; repeat split; lia. }
  destruct Hp as (-> & -> & Hw & H1 & H2).
  repeat (split; [assumption|]).
  intros Hr Hts. destruct (Hrel Hr Hts) as (? & ? & ?). auto.
Qed.

Lemma full_sync_loop_trace us ds :
  forall stats ts r stats' ts' r',
    full_sync_loop self us ds stats ts r = ((stats', ts'), r') ->
    users r' = users r /\
    map without_tags (documents r') = map without_tags (documents r) /\
    exists writes created,
      sent r' = sent r ++ writes /\
      tags r' = tags r ++ created /\
      forallb is_write writes = true /\
      (length (List.filter is_post writes) <= length ds)%nat /\
      (length (List.filter is_patch writes) <= length ds)%nat /\
      (length created <= length (List.filter is_post writes))%nat /\
      Forall (fun t => exists d u, d ∈ ds /\ owner_username us d = Some u /\
                                   owner_tag_mapping self !! u = None /\
                                   tag_name t = tag_prefix self +:+ u)
        created /\
      (reliable r -> ts = tag_directory r ->
       reliable r' /\ ts' = tag_directory r' /\
       length (List.filter is_post writes) = length created).
Proof.
  induction ds as [|d ds IH]; intros stats ts r stats' ts' r' Hloop.
  - injection Hloop as <- <- <-. repeat (split; [reflexivity|]).
    exists [], []. rewrite !app_nil_r. simpl.
    repeat (split; [reflexivity || lia || constructor|]). auto.
  - simpl in Hloop. unfold mbind, M_bind in Hloop.
    rewrite full_sync_step_reconcile in Hloop. unfold mbind, M_bind in Hloop.
    destruct (Spec.reconcile self us ts d r) as [[o ts1] r1] eqn:Hrec.
    unfold mret, M_ret in Hloop.
    apply reconcile_writes in Hrec
      as (Hu1 & Hd1 & w1 & c1 & Hs1 & Ht1 & Hw1 & Hpo1 & Hpa1 & Hl1 & Hc1
          & Hrel1).
    apply IH in Hloop
      as (Hu2 & Hd2 & w2 & c2 & Hs2 & Ht2 & Hw2 & Hpo2 & Hpa2 & Hl2 & Hc2
          & Hrel2).
    split; [congruence|]. split; [congruence|].
    exists (w1 ++ w2), (c1 ++ c2).
    split; [now rewrite Hs2, Hs1, <- app_assoc|].
    split; [now rewrite Ht2, Ht1, <- app_assoc|].
    rewrite forallb_app, !List.filter_app, !length_app, Hw1, Hw2.
    split; [reflexivity|]. simpl length.
    split; [lia|]. split; [lia|]. split; [lia|]. split.
    + apply Forall_app. split.
      * eapply Forall_impl; [exact Hc1|]. intros t (u & ? & ? & ?).
        exists d, u. split; [apply list_elem_of_here|auto].
      * eapply Forall_impl; [exact Hc2|]. intros t (d' & u & ? & ? & ? & ?).
        exists d', u. split; [now apply list_elem_of_further|auto].
    + intros Hr Hts. destruct (Hrel1 Hr Hts) as (Hr1 & Hts1 & E1).
      destruct (Hrel2 Hr1 Hts1) as (Hr2 & Hts2 & E2).
      split; [exact Hr2|]. split; [exact Hts2|]. lia.
Qed.

End BatchTrace.

Lemma paginate_first_page {A} (size room : nat) (l : list A) :
  (1 <= length (paginate size room l))%nat.
Proof.
  destruct l as [|x l]; simpl; [lia|].
  destruct room; simpl; [lia|].
  destruct (paginate size room l); simpl; lia.
Qed.

Lemma reliable_no_outage (r : Remote) (n : nat) :
  reliable r ->
  list_find (fun down => down = true) (take n (outages r)) = None /\
  Forall (fun down => down = false) (drop n (outages r)).
Proof.
  unfold reliable. intros Hr. split.
  - apply list_find_None. apply Forall_take.
    eapply Forall_impl; [exact Hr|]. intros b ->. discriminate.
  - now apply Forall_drop.
Qed.

Lemma full_sync_trace (self : PaperlessSync) (r : Remote) :
  users (snd (full_sync self r)) = users r /\
  map without_tags (documents (snd (full_sync self r)))
  = map without_tags (documents r) /\
  exists j writes created,
    sent (snd (full_sync self r))
    = sent r ++ map GetDocuments (seq 1 j) ++ [GetUsers; GetTags] ++ writes /\
    (1 <= j <= page_count r)%nat /\
    (documents_fetch_fails r = false -> j = page_count r) /\
    (documents_fetch_fails r = true -> writes = [] /\ created = []) /\
    tags (snd (full_sync self r)) = tags r ++ created /\
    forallb is_write writes = true /\
    (length (List.filter is_post writes) <= length (documents r))%nat /\
    (length (List.filter is_patch writes) <= length (documents r))%nat /\
    (length created <= length (List.filter is_post writes))%nat /\
    Forall (fun t => exists u, unmapped_user self r u /\
                               tag_name t = tag_prefix self +:+ u) created /\
    (reliable r -> length (List.filter is_post writes) = length created).
Proof.
  unfold full_sync, mbind, M_bind.
  pose proof (get_all_documents_pages r) as (Hsame1 & Hpages).
  pose proof (paginate_first_page (page_size r) (page_size r) (documents r))
    as Hfirst. fold (page_count r) in Hfirst.
  destruct (get_all_documents r) as [docs r1]. simpl in Hsame1, Hpages.
  destruct Hsame1 as (Hd1 & Hu1 & Ht1 & _).
  assert (Hfetch : exists j,
            sent r1 = sent r ++ map GetDocuments (seq 1 j) /\
            (1 <= j <= page_count r)%nat /\
            (documents_fetch_fails r = false -> j = page_count r) /\
            (documents_fetch_fails r = true -> docs = []) /\
            (docs = [] \/ docs = documents r) /\
            (reliable r -> reliable r1)).
  { destruct (list_find _ _) as [[k b]|] eqn:Hfind.
    - destruct Hpages as (Hfail & -> & Hsent & Hout). exists (S k).
      split; [exact Hsent|]. pose proof Hfind as Hsome.
      apply list_find_Some in Hsome as (Hk & _).
      apply lookup_lt_Some in Hk. rewrite length_take in Hk.
      split; [lia|]. split; [congruence|]. split; [auto|]. split; [auto|].
      intros Hr. destruct (reliable_no_outage r (page_count r) Hr) as [Hn _].
      congruence.
    - destruct Hpages as (Hfail & -> & Hsent & Hout). exists (page_count r).
      split; [exact Hsent|]. split; [lia|]. split; [auto|].
      split; [congruence|]. split; [auto|].
      intros Hr. unfold reliable. rewrite Hout.
      apply (reliable_no_outage r _ Hr). }
  destruct Hfetch as (j & Hs1 & Hj & Hjall & Hnone & Hdocs & Hrel1).
  destruct (get_users r1) as [us r2] eqn:Hus.
  apply get_users_spec in Hus
    as ((Hd2 & Hu2 & Ht2 & _) & Hs2 & Hfetched & Hrel2).
  destruct (get_tags r2) as [ts r3] eqn:Hts.
  apply get_tags_spec in Hts as ((Hd3 & Hu3 & Ht3 & _) & Hs3 & Hdir & Hrel3).
  assert (Hs : sent r3
               = sent r ++ map GetDocuments (seq 1 j) ++ [GetUsers; GetTags])
    by (now rewrite Hs3, Hs2, Hs1, <- !app_assoc).
  destruct docs as [|d docs].
  { unfold mret, M_ret. simpl.
    split; [congruence|]. split; [congruence|].
    exists j, [], []. rewrite !app_nil_r. simpl.
    split; [exact Hs|]. split; [exact Hj|]. split; [exact Hjall|].
    split; [auto|]. split; [congruence|].
    repeat (split; [reflexivity || lia || constructor|]). auto. }
  destruct Hdocs as [?|Hdocs]; [discriminate|].
  destruct (full_sync_loop self us (d :: docs) _ ts r3)
    as [[stats ts'] r'] eqn:Hloop.
  apply full_sync_loop_trace in Hloop
    as (Hu4 & Hd4 & writes & created & Hs4 & Ht4 & Hw & Hpo & Hpa & Hlen & Hc
        & Hrel4).
  unfold mret, M_ret. simpl.
  split; [congruence|]. split; [congruence|].
  exists j, writes, created.
  split; [now rewrite Hs4, Hs, <- !app_assoc|].
  split; [exact Hj|]. split; [exact Hjall|].
  split; [intros Hfail; now specialize (Hnone Hfail)|].
  split; [congruence|]. split; [exact Hw|].
  rewrite <- Hdocs. split; [exact Hpo|]. split; [exact Hpa|].
  split; [exact Hlen|]. split.
  - eapply Forall_impl; [exact Hc|]. intros t (d' & u & _ & Hown & Hmap & Hn).
    exists u. split; [|exact Hn]. split; [|exact Hmap].
    rewrite <- Hu1. now apply (owner_username_listed us r1 d').
  - intros Hr. destruct (Hrel2 (Hrel1 Hr)) as [_ Hr2].
    destruct (Hrel3 Hr2) as [-> Hr3].
    destruct (Hrel4 Hr3) as (_ & _ & E); [|exact E].
    unfold tag_directory. now rewrite Ht3.
Qed.

(** X10: a batch run changes nothing of the platform but tag lists and
    tags.  The users are as they were; the documents are the same ones
    in the same order, each with its identifier, title and owner; the
    tags of before are all there, unchanged and in their order, followed
    by the tags the run created: at most one for each document, each
    named by the prefix and the username of a user of the platform who
    has no entry in the mapping. *)
Theorem full_sync_touches_tags_only (self : PaperlessSync) (r : Remote) :
  users (snd (full_sync self r)) = users r /\
  map without_tags (documents (snd (full_sync self r)))
  = map without_tags (documents r) /\
  exists created,
    tags (snd (full_sync self r)) = tags r ++ created /\
    (length created <= length (documents r))%nat /\
    Forall (fun t => exists u, unmapped_user self r u /\
                               tag_name t = tag_prefix self +:+ u) created.
Proof.
  destruct (full_sync_trace self r)
    as (Husr & Hdocs & j & writes & created & _ & _ & _ & _ & Htags & _ & Hpo
        & _ & Hlen & Hc & _).
  split; [exact Husr|]. split; [exact Hdocs|].
  exists created. split; [exact Htags|]. split; [lia|exact Hc].
Qed.

(** X12: the requests of a batch run, in their order: the fetches of the
    pages, at least one and at most as many as there are pages; the
    fetch of the users and the fetch of the tags, which are sent even
    when a page was lost; then nothing but creations of tags and updates
    of documents, at most one of each for every document of the
    platform, and none at all when a page was lost.  On a network that
    loses nothing every page is fetched and every creation the run asks
    for gives a tag: no name is asked for twice. *)
Theorem full_sync_requests (self : PaperlessSync) (r : Remote) :
  exists j writes,
    sent (snd (full_sync self r))
    = sent r ++ map GetDocuments (seq 1 j) ++ [GetUsers; GetTags] ++ writes /\
    (1 <= j <= page_count r)%nat /\
    forallb is_write writes = true /\
    (length (List.filter is_post writes) <= length (documents r))%nat /\
    (length (List.filter is_patch writes) <= length (documents r))%nat /\
    (documents_fetch_fails r = true -> writes = []) /\
    (documents_fetch_fails r = false -> j = page_count r) /\
    (reliable r ->
     j = page_count r /\
     (length (tags (snd (full_sync self r)))
      = length (tags r) + length (List.filter is_post writes))%nat).
Proof.
  destruct (full_sync_trace self r)
    as (_ & _ & j & writes & created & Hsent & Hj & Hjall & Hnone & Htags & Hw
        & Hpo & Hpa & _ & _ & Hrel).
  exists j, writes. split; [exact Hsent|]. split; [exact Hj|].
  split; [exact Hw|]. split; [exact Hpo|]. split; [exact Hpa|].
  split; [intros Hfail; apply (Hnone Hfail)|]. split; [exact Hjall|].
  intros Hr. split.
  - apply Hjall. unfold documents_fetch_fails.
    destruct (reliable_no_outage r (page_count r) Hr) as [Hn _].
    apply list_find_None in Hn. apply not_true_is_false. intros Hex.
    apply existsb_exists in Hex as (b & Hin & ->).
    apply list_elem_of_In in Hin. rewrite Forall_forall in Hn.
    now apply (Hn true).
  - rewrite Htags, length_app, (Hrel Hr). reflexivity.
Qed.

(** ** The result of a batch *)

(** X13: a batch ends with all four counters at zero in two cases and
    in no other: a request for a page of documents was lost, or the
    platform holds no document.  The result does not tell the two apart,
    and in both the platform is left as it was. *)
Theorem full_sync_zero_result (self : PaperlessSync) (r : Remote) :
  (fst (full_sync self r) = mkStats 0 0 0 0 <->
   documents_fetch_fails r = true \/ documents r = []) /\
  (fst (full_sync self r) = mkStats 0 0 0 0 ->
   same_data r (snd (full_sync self r))).
Proof.
  pose proof (full_sync_run_counts self r) as Hcounts.
  unfold full_sync, mbind, M_bind in *.
  destruct (get_all_documents r) as [docs r1] eqn:Hdocs.
  apply get_all_documents_spec in Hdocs as (Hsame1 & _ & Hfetch).
  destruct (get_users r1) as [us r2] eqn:Hus.
  apply get_users_spec in Hus as (Hsame2 & _).
  destruct (get_tags r2) as [ts r3] eqn:Hts.
  apply get_tags_spec in Hts as (Hsame3 & _).
  destruct docs as [|d docs].
  - unfold mret, M_ret. simpl. split.
    + split; [|reflexivity]. intros _.
      destruct (documents_fetch_fails r); auto.
    + intros _. eauto using same_data_trans.
  - cbv zeta in Hcounts. destruct Hcounts as (Ht & _).
    destruct (full_sync_loop self us (d :: docs) _ ts r3)
      as [[stats ts'] r'] eqn:Hloop.
    unfold mret, M_ret in *. simpl fst in *. simpl snd.
    assert (Hne : stats <> mkStats 0 0 0 0).
    { intros E. rewrite E in Ht. simpl in Ht. lia. }
    split; [|intros E; contradiction]. split; [intros E; contradiction|].
    intros [Hfail|Hempty].
    + rewrite Hfail in Hfetch. discriminate.
    + destruct (documents_fetch_fails r); [discriminate|congruence].
Qed.

Lemma outcomes_classes (os : list Spec.Outcome) :
  how_many attached os + how_many failure os + how_many skipped os
  = Z.of_nat (length os).
Proof.
  unfold how_many. induction os as [|o os IH]; [reflexivity|].
  destruct o; simpl; lia.
Qed.

Lemma filter_map_length {A} (f : A -> bool) (l : list A) :
  length (List.filter (fun b : bool => b) (map f l)) = length (List.filter f l).
Proof.
  induction l as [|x l IH]; [reflexivity|].
  simpl. destruct (f x); simpl; now rewrite IH.
Qed.

(** X14: the counters of a batch add up.  [processed] ends equal to
    [total]; [succeeded] and [failed] are never negative; and every
    fetched document is counted in exactly one of three ways: as
    succeeded, as failed, or, when the users the run fetched give it no
    owner, in neither. *)
Theorem full_sync_counters_add_up (self : PaperlessSync) (r : Remote) :
  let docs := fst (get_all_documents r) in
  let us := fst (get_users (snd (get_all_documents r))) in
  let stats := fst (full_sync self r) in
  processed stats = total stats /\
  0 <= succeeded stats /\ 0 <= failed stats /\
  succeeded stats + failed stats
  + Z.of_nat (length (List.filter
                        (fun d => bool_decide (owner_username us d = None))
                        docs))
  = total stats.
Proof.
  pose proof (full_sync_run_counts self r) as Hcounts.
  destruct (get_all_documents r) as [docs r1]. simpl snd. simpl fst.
  destruct (get_users r1) as [us r2].
  destruct (get_tags r2) as [ts r3].
  cbv zeta in *. simpl fst.
  destruct Hcounts as (Ht & Hp & Hs & Hf & Hsk).
  pose proof (outcomes_classes (fst (outcomes self us docs ts r3))) as Hsum.
  assert (Hlen : length (fst (outcomes self us docs ts r3)) = length docs).
  { rewrite <- (length_map skipped), Hsk. apply length_map. }
  assert (Hskip : how_many skipped (fst (outcomes self us docs ts r3))
                  = Z.of_nat (length (List.filter
                        (fun d => bool_decide (owner_username us d = None))
                        docs))).
  { unfold how_many. now rewrite <- filter_map_length, Hsk, filter_map_length. }
  rewrite Hlen, Hskip in Hsum. rewrite Ht, Hp, Hs, Hf.
  unfold how_many in *. repeat split; lia.
Qed.

(** X15: the loop of the batch and the run for one document hold the
    same steps twice, and the two copies agree.  From the state the
    three reads of a single run end in, with the document and the two
    directories these reads brought, one turn of the loop leaves the
    platform exactly as the single run does; it counts the document as
    succeeded when the single run reports success and as failed when it
    reports failure, except that a document without an owner to go by,
    a success of the single run, is counted as processed only. *)
Theorem full_sync_step_agrees_with_single_run
    (self : PaperlessSync) (id : Z) (r : Remote) (d : Document)
    (us : gmap Z string) (ts : gmap string Z) (r3 : Remote) (stats : Stats) :
  reads id r = ((Some d, us, ts), r3) ->
  snd (full_sync_step self us d stats ts r3)
  = snd (sync_document_owner_tag self id r) /\
  fst (fst (full_sync_step self us d stats ts r3))
  = match owner_username us d with
    | None => count_processed stats
    | Some _ =>
        if fst (sync_document_owner_tag self id r)
        then count_succeeded (count_processed stats)
        else count_failed (count_processed stats)
    end.
Proof.
  intros Hreads.
  rewrite (sync_after_reads _ _ _ _ _ _ _ Hreads), full_sync_step_tally.
  simpl. split; [reflexivity|].
  pose proof (reconcile_no_owner self us ts d r3) as Hskip.
  destruct (owner_username us d) as [u|];
    destruct (fst (fst (Spec.reconcile self us ts d r3)));
    simpl in *; try reflexivity; discriminate.
Qed.

Lemma full_sync_step_agrees_with_single_run_witness :
  snd (full_sync_step Demo.client (user_directory (Demo.platform []))
         (mkDocument 11 "invoice" (Some 3) []) (mkStats 3 0 0 0)
         (tag_directory (Demo.platform []))
         (snd (reads 11 (Demo.platform []))))
  = snd (sync_document_owner_tag Demo.client 11 (Demo.platform [])).
Proof.
  apply (full_sync_step_agrees_with_single_run Demo.client 11
           (Demo.platform []) (mkDocument 11 "invoice" (Some 3) [])
           (user_directory (Demo.platform []))
           (tag_directory (Demo.platform []))
           (snd (reads 11 (Demo.platform []))) (mkStats 3 0 0 0)).
  reflexivity.
Defined.

(** ** Tag names *)

Lemma string_app_inj (p a b : string) : p +:+ a = p +:+ b -> a = b.
Proof.
  induction p as [|c p IH]; intros H; [exact H|].
  change (String c (p +:+ a) = String c (p +:+ b)) in H.
  injection H as H. auto.
Qed.

(** X16: the users without an entry in the mapping never share a tag:
    two of them with the same tag name are the same user. *)
Theorem get_owner_tag_name_unmapped_injective
    (self : PaperlessSync) (u v : string) :
  owner_tag_mapping self !! u = None ->
  owner_tag_mapping self !! v = None ->
  get_owner_tag_name self u = get_owner_tag_name self v ->
  u = v.
Proof.
  unfold get_owner_tag_name. intros -> ->. apply string_app_inj.
Qed.

Lemma get_owner_tag_name_unmapped_injective_witness :
  "bob"%string = "bob"%string.
Proof.
  apply (get_owner_tag_name_unmapped_injective Demo.client "bob" "bob");
    reflexivity.
Defined.

(** ** The mapping file *)


(** ** A second batch *)

Section Settled.

Variable self : PaperlessSync.

(** A batch over documents that need nothing sends nothing. *)
Lemma full_sync_loop_settled us ts ds :
  forall stats r,
    Forall (settled_doc self us ts) ds ->
    full_sync_loop self us ds stats ts r
    = ((foldl (fun s d => settled_tally self us ts d s) stats ds, ts), r).
Proof.
  induction ds as [|d ds IH]; intros stats r Hall; [reflexivity|].
  inversion Hall as [|? ? Hd Hds]; subst.
  simpl. unfold mbind, M_bind. rewrite full_sync_step_tally.
  unfold settled_doc in Hd. unfold settled_tally at 2.
  destruct (owner_username us d) as [u|] eqn:Hown.
  - destruct (ts !! get_owner_tag_name self u) as [t|] eqn:Hts.
    + rewrite (reconcile_already_tagged self _ _ _ _ _ _ Hown Hts Hd).
      simpl. now apply IH.
    + rewrite (reconcile_mapped_missing self _ _ _ _ _ Hown Hd Hts).
      simpl. now apply IH.
  - rewrite (reconcile_no_owner_eq self _ _ _ _ Hown). simpl. now apply IH.
Qed.

Lemma settled_doc_stable us dir dir' (r : Remote) d :
  settled_doc self us dir d ->
  dir ⊆ dir' ->
  (forall n, dir !! n = None -> is_Some (dir' !! n) ->
             exists v, unmapped_user self r v /\ n = tag_prefix self +:+ v) ->
  collision_free self r ->
  settled_doc self us dir' d /\
  forall s, settled_tally self us dir' d s = settled_tally self us dir d s.
Proof.
  unfold settled_doc, settled_tally. intros Hd Hsub Hnew Hfree.
  destruct (owner_username us d) as [u|]; [|auto].
  destruct (dir !! get_owner_tag_name self u) as [t|] eqn:Hdir.
  - now rewrite (lookup_weaken _ _ _ _ Hdir Hsub).
  - destruct (dir' !! get_owner_tag_name self u) as [t|] eqn:Hdir'; [|auto].
    exfalso. destruct Hd as [n Hmap].
    destruct (Hnew _ Hdir) as (v & Hv & Hname); [eauto|].
    apply (Hfree u n v Hmap Hv).
    unfold get_owner_tag_name in Hname. now rewrite Hmap in Hname.
Qed.

Lemma collision_free_users r r' :
  users r' = users r -> collision_free self r -> collision_free self r'.
Proof.
  unfold collision_free, unmapped_user. intros ->. auto.
Qed.

(** The loop on a platform that loses nothing: every document it has
    been through needs nothing more. *)
Lemma full_sync_loop_settles us ds :
  forall pre stats ts r stats' ts' r',
    full_sync_loop self us ds stats ts r = ((stats', ts'), r') ->
    reliable r -> ts = tag_directory r ->
    documents r = pre ++ ds ->
    NoDup (map document_id (pre ++ ds)) ->
    (forall d u, owner_username us d = Some u -> u ∈ map username (users r)) ->
    collision_free self r ->
    reliable r' /\ ts' = tag_directory r' /\ users r' = users r /\
    tag_directory r ⊆ tag_directory r' /\
    (forall n, tag_directory r !! n = None -> is_Some (tag_directory r' !! n) ->
               exists v, unmapped_user self r v /\ n = tag_prefix self +:+ v) /\
    exists ds',
      documents r' = pre ++ ds' /\ length ds' = length ds /\
      Forall (settled_doc self us (tag_directory r')) ds' /\
      stats' = foldl (fun s d => settled_tally self us (tag_directory r') d s)
                 stats ds'.
Proof.
  induction ds as [|d ds IH];
    intros pre stats ts r stats' ts' r' Hloop Hr Hts Hdocs Hnodup Hus Hfree.
  - injection Hloop as <- <- <-.
    split; [exact Hr|]. split; [exact Hts|]. split; [reflexivity|].
    split; [reflexivity|].
    split; [intros n Hn [? ?]; congruence|].
    exists []. repeat split; auto.
  - simpl in Hloop. unfold mbind, M_bind in Hloop.
    rewrite full_sync_step_tally in Hloop.
    destruct (Spec.reconcile self us ts d r) as [[o ts1] r1] eqn:Hrec.
    simpl in Hloop.
    assert (Hpre : document_id d ∉ map document_id pre).
    { rewrite map_app in Hnodup. apply NoDup_app in Hnodup as (_ & Hdis & _).
      intros Hin. apply (Hdis _ Hin). simpl. apply list_elem_of_here. }
    destruct (reconcile_spec self _ _ _ _ _ _ _ _ _ Hrec Hdocs Hpre)
      as (Husr & Hpost & Hmono & _ & Hrel).
    destruct (Hrel Hr) as (Hr1 & Hupd & Hcre). specialize (Hcre Hts).
    apply reconcile_trace in Hrec
      as (_ & _ & posts & patches & created & _ & Htags & Hposts & _ & Hrel').
    destruct (Hrel' Hr Hts) as (_ & Hts1 & _).
    (* the document after its turn *)
    assert (Hstep : exists d1,
              documents r1 = pre ++ d1 :: ds /\
              document_id d1 = document_id d /\
              settled_doc self us (tag_directory r1) d1 /\
              forall s, Spec.tally o s
                        = settled_tally self us (tag_directory r1) d1 s).
    { unfold settled_doc, settled_tally. rewrite <- Hts1.
      destruct o; simpl in Hpost.
      - destruct Hpost as (Hown & -> & ->). exists d. rewrite Hown. auto.
      - destruct Hpost as (u & Hown & Hmap & Hnone & -> & ->). exists d.
        rewrite Hown, Hnone. auto.
      - now destruct Hcre.
      - destruct Hpost as (u & t & Hown & Hname & Hin & E). exists d.
        rewrite Hown, Hname, E. auto.
      - destruct Hpost as (u & t & Hown & Hname & Hin & E).
        exists (with_tags d (document_tags d ++ [t])).
        change (owner_username us (with_tags d (document_tags d ++ [t])))
          with (owner_username us d).
        rewrite Hown, Hname. split; [exact E|]. split; [reflexivity|].
        split; [|reflexivity]. simpl. apply elem_of_app. right.
        apply list_elem_of_here.
      - now destruct Hupd. }
    destruct Hstep as (d1 & Hdocs1 & Hid & Hset1 & Htally1).
    (* the tag this turn may have created *)
    assert (Hnew1 : forall n, tag_directory r !! n = None ->
                              is_Some (tag_directory r1 !! n) ->
                              exists v, unmapped_user self r v /\
                                        n = tag_prefix self +:+ v).
    { intros n Hn Hsome. unfold tag_directory in Hsome. rewrite Htags in Hsome.
      destruct Hposts as [(_ & -> & _)|(u & Hown & Hmap & _ & _ & Hmade)].
      - rewrite app_nil_r in Hsome. destruct Hsome. unfold tag_directory in Hn.
        congruence.
      - destruct Hmade as [(-> & _)|(t & _ & -> & _)].
        + rewrite app_nil_r in Hsome. destruct Hsome.
          unfold tag_directory in Hn. congruence.
        + rewrite dict_of_snoc in Hsome. simpl in Hsome.
          destruct (decide (tag_prefix self +:+ u = n)) as [<-|Hne].
          * exists u. split; [|reflexivity]. split; [eauto|exact Hmap].
          * rewrite lookup_insert_ne in Hsome by exact Hne.
            destruct Hsome. unfold tag_directory in Hn. congruence. }
    destruct (IH (pre ++ [d1]) _ _ _ _ _ _ Hloop Hr1 Hts1)
      as (Hr' & Hts' & Husr' & Hmono' & Hnew' & ds' & Hdocs' & Hlen & Hall
          & Hstats).
    + now rewrite Hdocs1, <- app_assoc.
    + rewrite <- app_assoc. simpl. rewrite map_app in *. simpl in *.
      now rewrite Hid.
    + rewrite Husr. exact Hus.
    + now apply (collision_free_users r).
    + assert (Hnew'' : forall n, tag_directory r1 !! n = None ->
                is_Some (tag_directory r' !! n) ->
                exists v, unmapped_user self r v /\ n = tag_prefix self +:+ v).
      { intros n Hn Hsome. destruct (Hnew' n Hn Hsome) as (v & [Hv Hm] & E).
        exists v. rewrite Husr in Hv. split; [split|]; auto. }
      destruct (settled_doc_stable us _ _ r d1 Hset1 Hmono' Hnew'' Hfree)
        as [Hset Htally].
      split; [exact Hr'|]. split; [exact Hts'|]. split; [congruence|].
      split; [now transitivity (tag_directory r1)|]. split.
      * intros n Hn Hsome.
        destruct (tag_directory r1 !! n) as [t|] eqn:Hn1; [eauto|].
        now apply Hnew''.
      * exists (d1 :: ds'). split; [now rewrite Hdocs', <- app_assoc|].
        split; [simpl; now rewrite Hlen|]. split; [now constructor|].
        simpl. now rewrite Htally, <- Htally1.
Qed.

End Settled.

(** A batch on a platform that loses nothing: its reads bring the
    documents, the users and the tags as the platform has them. *)
Lemma full_sync_reliable (self : PaperlessSync) (r : Remote) :
  reliable r ->
  exists r3,
    same_data r r3 /\ reliable r3 /\
    sent r3
    = sent r ++ map GetDocuments (seq 1 (page_count r)) ++ [GetUsers; GetTags] /\
    full_sync self r
    = match documents r with
      | [] => (mkStats 0 0 0 0, r3)
      | _ :: _ =>
          let run := full_sync_loop self (user_directory r) (documents r)
                       (mkStats (Z.of_nat (length (documents r))) 0 0 0)
                       (tag_directory r) r3 in
          (fst (fst run), snd run)
      end.
Proof.
  intros Hr. unfold full_sync, mbind, M_bind.
  pose proof (get_all_documents_pages r) as (Hsame1 & Hpages).
  destruct (reliable_no_outage r (page_count r) Hr) as [Hnone Hdrop].
  rewrite Hnone in Hpages. destruct Hpages as (_ & Hdocs & Hs1 & Hout).
  destruct (get_all_documents r) as [docs r1]. simpl in Hsame1, Hdocs, Hs1, Hout.
  subst docs.
  assert (Hr1 : reliable r1) by (unfold reliable; now rewrite Hout).
  destruct (get_users r1) as [us r2] eqn:Hus.
  apply get_users_spec in Hus as (Hsame2 & Hs2 & _ & Hrel2).
  destruct (Hrel2 Hr1) as [-> Hr2].
  destruct (get_tags r2) as [ts r3] eqn:Hts.
  apply get_tags_spec in Hts as (Hsame3 & Hs3 & _ & Hrel3).
  destruct (Hrel3 Hr2) as [-> Hr3].
  exists r3. split; [eauto using same_data_trans|]. split; [exact Hr3|].
  split; [now rewrite Hs3, Hs2, Hs1, <- !app_assoc|].
  assert (Hu : user_directory r1 = user_directory r).
  { unfold user_directory. destruct Hsame1 as (_ & -> & _). reflexivity. }
  assert (Ht : tag_directory r2 = tag_directory r).
  { unfold tag_directory. destruct Hsame1 as (_ & _ & Ht1 & _).
    destruct Hsame2 as (_ & _ & Ht2 & _). now rewrite Ht2, Ht1. }
  rewrite Hu, Ht.
  destruct (documents r) as [|d docs]; [reflexivity|].
  cbv zeta.
  now destruct (full_sync_loop self (user_directory r) (d :: docs) _
                  (tag_directory r) r3) as [[stats ts'] r'].
Qed.

(** X18: a second batch finds nothing to do.  On a platform that loses
    no request, whose documents have distinct identifiers, and where no
    name of the mapping is also the name the prefix gives to a user
    without an entry, a batch run right after a batch run sends its
    reads and nothing else, leaves the platform as the first run left
    it, and returns the same four counters as the first. *)
Theorem full_sync_twice (self : PaperlessSync) (r : Remote) :
  reliable r ->
  NoDup (map document_id (documents r)) ->
  collision_free self r ->
  let first := full_sync self r in
  let second := full_sync self (snd first) in
  fst second = fst first /\
  same_data (snd first) (snd second) /\
  sent (snd second)
  = sent (snd first) ++ map GetDocuments (seq 1 (page_count (snd first)))
      ++ [GetUsers; GetTags].
Proof.
  intros Hr Hnodup Hfree. cbv zeta.
  destruct (full_sync_reliable self r Hr) as (r3 & Hsame & Hr3 & _ & Hfirst).
  destruct Hsame as (Hd3 & Hu3 & Ht3 & Hn3 & Hp3).
  destruct (documents r) as [|d docs] eqn:Hdocs.
  - rewrite Hfirst. simpl.
    destruct (full_sync_reliable self r3 Hr3) as (r6 & Hsame' & _ & Hs & ->).
    rewrite Hd3. simpl. auto.
  - cbv zeta in Hfirst.
    destruct (full_sync_loop self (user_directory r) (d :: docs) _
                (tag_directory r) r3) as [[stats ts'] r'] eqn:Hloop.
    simpl in Hfirst. rewrite Hfirst. simpl.
    destruct (full_sync_loop_settles self _ _ [] _ _ _ _ _ _ Hloop)
      as (Hr' & Hts' & Husr' & _ & _ & ds' & Hdocs' & Hlen & Hall & Hstats);
      [exact Hr3|unfold tag_directory; now rewrite Ht3|exact Hd3
      |exact Hnodup| |now apply (collision_free_users self r)|].
    { intros d0 u Hown. rewrite Hu3.
      apply (owner_username_listed (user_directory r) r d0); auto. }
    simpl in Hdocs'.
    destruct (full_sync_reliable self r' Hr') as (r6 & Hsame' & _ & Hs & ->).
    assert (Hus : user_directory r' = user_directory r)
      by (unfold user_directory; now rewrite Husr', Hu3).
    rewrite Hdocs', Hus.
    destruct ds' as [|d' ds']; [discriminate|].
    cbv zeta. rewrite full_sync_loop_settled by exact Hall. simpl fst. simpl snd.
    split; [|auto]. rewrite Hstats. simpl length in *. now rewrite Hlen.
Qed.

Lemma full_sync_twice_witness :
  fst (full_sync Demo.client (snd (full_sync Demo.client (Demo.platform []))))
  = fst (full_sync Demo.client (Demo.platform [])).
Proof.
  apply (full_sync_twice Demo.client (Demo.platform [])).
  - constructor.
  - apply (bool_decide_unpack _). reflexivity.
  - intros u n v Hmap _ E. unfold Demo.client, new_PaperlessSync in Hmap.
    simpl in Hmap. apply lookup_singleton_Some in Hmap as [_ <-].
    discriminate E.
Defined.

(** Where a name of the mapping is also the name the prefix gives to Bob,
    the second batch is not like the first: Jane's document, failed in
    the first for want of her tag, gets the tag that the first created
    for Bob. *)
Example full_sync_twice_collision :
  let client := new_PaperlessSync None (Some {[ "jane"%string := "owner:bob"%string ]}) in
  let first := full_sync client (Demo.platform []) in
  let second := full_sync client (snd first) in
  fst first = mkStats 3 3 1 1 /\ fst second = mkStats 3 3 2 0.
Proof. split; reflexivity. Qed.

(** ** The batch and the single runs *)

Section Simulation.

Variable self : PaperlessSync.

Lemma same_data_sym r r' : same_data r r' -> same_data r' r.
Proof. intros (?&?&?&?&?). repeat split; congruence. Qed.

Lemma send_on_reliable q r :
  reliable r ->
  fst (send q r) = true /\ same_data r (snd (send q r)) /\
  reliable (snd (send q r)).
Proof.
  intros Hr. destruct (send q r) as [ok r1] eqn:Hs.
  destruct (send_reliable _ _ _ _ Hr Hs) as [-> Hr1].
  apply send_spec in Hs as (Hsame & _). auto.
Qed.

Lemma create_tag_data name rA rB :
  same_data rA rB -> reliable rA -> reliable rB ->
  fst (create_tag name rA) = fst (create_tag name rB) /\
  same_data (snd (create_tag name rA)) (snd (create_tag name rB)).
Proof.
  intros Hsame HA HB. unfold create_tag, mbind, M_bind.
  destruct (send_on_reliable (PostTag name) rA HA) as (HokA & HsA & _).
  destruct (send_on_reliable (PostTag name) rB HB) as (HokB & HsB & _).
  destruct (send (PostTag name) rA) as [okA rA1].
  destruct (send (PostTag name) rB) as [okB rB1].
  simpl in *. subst okA okB.
  assert (H1 : same_data rA1 rB1)
    by eauto using same_data_trans, same_data_sym.
  destruct H1 as (Hd & Hu & Ht & Hn & Hp).
  unfold store_tag. rewrite Ht, Hn.
  destruct (existsb _ (tags rA1)); simpl; repeat split; simpl; congruence.
Qed.

Lemma update_document_tags_data id l rA rB :
  same_data rA rB -> reliable rA -> reliable rB ->
  fst (update_document_tags id l rA) = fst (update_document_tags id l rB) /\
  same_data (snd (update_document_tags id l rA))
    (snd (update_document_tags id l rB)).
Proof.
  intros Hsame HA HB.
  unfold update_document_tags, mbind, M_bind, gets, put_documents, mret, M_ret.
  destruct (send_on_reliable (PatchDocument id l) rA HA) as (HokA & HsA & _).
  destruct (send_on_reliable (PatchDocument id l) rB HB) as (HokB & HsB & _).
  destruct (send (PatchDocument id l) rA) as [okA rA1].
  destruct (send (PatchDocument id l) rB) as [okB rB1].
  simpl in *. subst okA okB.
  assert (H1 : same_data rA1 rB1)
    by eauto using same_data_trans, same_data_sym.
  destruct H1 as (Hd & Hu & Ht & Hn & Hp).
  rewrite Hd.
  destruct (find_document id (documents rA1)); simpl; repeat split; simpl;
    congruence.
Qed.

(** On platforms that lose nothing the steps of §4.2 go by the data
    alone. *)
Lemma reconcile_data us ts d rA rB :
  same_data rA rB -> reliable rA -> reliable rB ->
  fst (Spec.reconcile self us ts d rA) = fst (Spec.reconcile self us ts d rB) /\
  same_data (snd (Spec.reconcile self us ts d rA))
    (snd (Spec.reconcile self us ts d rB)).
Proof.
  assert (Hattach : forall ts0 t rA0 rB0,
    same_data rA0 rB0 -> reliable rA0 -> reliable rB0 ->
    fst (Spec.attach d ts0 t rA0) = fst (Spec.attach d ts0 t rB0) /\
    same_data (snd (Spec.attach d ts0 t rA0)) (snd (Spec.attach d ts0 t rB0))).
  { intros ts0 t rA0 rB0 Hsame HA HB. unfold Spec.attach, mbind, M_bind.
    case_bool_decide; [simpl; auto|].
    destruct (update_document_tags_data (document_id d)
                (document_tags d ++ [t]) rA0 rB0 Hsame HA HB) as [Hf Hs].
    destruct (update_document_tags _ _ rA0) as [okA rA1].
    destruct (update_document_tags _ _ rB0) as [okB rB1].
    simpl in *. subst okB. auto. }
  intros Hsame HA HB. unfold Spec.reconcile.
  destruct (owner_username us d) as [u|]; [|simpl; auto].
  cbv zeta. destruct (ts !! get_owner_tag_name self u) as [t|]; [auto|].
  destruct (owner_tag_mapping self !! u); [simpl; auto|].
  unfold mbind, M_bind.
  destruct (create_tag_data (get_owner_tag_name self u) rA rB Hsame HA HB)
    as [Hf Hs].
  destruct (create_tag _ rA) as [madeA rA1] eqn:HcA.
  destruct (create_tag _ rB) as [madeB rB1] eqn:HcB.
  simpl in Hf, Hs. subst madeB.
  apply create_tag_spec in HcA as (_ & _ & _ & _ & HrelA).
  apply create_tag_spec in HcB as (_ & _ & _ & _ & HrelB).
  destruct madeA as [t|]; [|simpl; auto].
  destruct (Z.eqb t 0); [simpl; auto|].
  apply Hattach; [exact Hs|apply (HrelA HA)|apply (HrelB HB)].
Qed.

Lemma full_sync_loop_as_single_runs ds :
  forall pre stats rA rB,
    reliable rA -> reliable rB -> same_data rA rB ->
    documents rA = pre ++ ds ->
    NoDup (map document_id (pre ++ ds)) ->
    let batch := full_sync_loop self (user_directory rA) ds stats
                   (tag_directory rA) rA in
    let singles := sync_each self (map document_id ds) rB in
    same_data (snd batch) (snd singles) /\
    failed (fst (fst batch))
    = failed stats + Z.of_nat (length (List.filter negb (fst singles))).
Proof.
  induction ds as [|d ds IH]; intros pre stats rA rB HA HB Hsame Hdocs Hnodup.
  - simpl. split; [exact Hsame|lia].
  - cbv zeta. simpl full_sync_loop. simpl map. simpl sync_each.
    unfold mbind, M_bind. rewrite full_sync_step_tally.
    assert (Hpre : document_id d ∉ map document_id pre).
    { rewrite map_app in Hnodup. apply NoDup_app in Hnodup as (_ & Hdis & _).
      intros Hin. apply (Hdis _ Hin). simpl. apply list_elem_of_here. }
    (* the single run reads what the batch holds *)
    destruct (reads_reliable (document_id d) rB HB) as (rB3 & Hreads & HsB & HB3).
    destruct Hsame as (Hd & Hu & Ht & Hn & Hp).
    assert (Hus : user_directory rB = user_directory rA)
      by (unfold user_directory; now rewrite Hu).
    assert (Hts : tag_directory rB = tag_directory rA)
      by (unfold tag_directory; now rewrite Ht).
    rewrite Hd, Hdocs, find_document_at, Hus, Hts in Hreads by exact Hpre.
    rewrite (sync_after_reads _ _ _ _ _ _ _ Hreads).
    assert (Hsame3 : same_data rA rB3).
    { apply (same_data_trans _ rB); [repeat split; assumption|exact HsB]. }
    destruct (reconcile_data (user_directory rA) (tag_directory rA) d rA rB3
                Hsame3 HA HB3) as [Hfst Hsnd].
    rewrite <- Hfst.
    destruct (Spec.reconcile self (user_directory rA) (tag_directory rA) d rA)
      as [[o ts1] rA1] eqn:HrecA.
    destruct (Spec.reconcile self (user_directory rA) (tag_directory rA) d rB3)
      as [[oB tsB] rB1] eqn:HrecB.
    simpl in Hfst, Hsnd. simpl fst. simpl snd.
    destruct (reconcile_spec self _ _ _ _ _ _ _ _ _ HrecA Hdocs Hpre)
      as (Husr & Hpost & _ & Hlocal & Hrel).
    destruct (Hrel HA) as (HA1 & _).
    assert (HB1 : reliable rB1).
    { assert (Hdocs3 : documents rB3 = pre ++ d :: ds)
        by (destruct Hsame3 as (-> & _); exact Hdocs).
      destruct (reconcile_spec self _ _ _ _ _ _ _ _ _ HrecB Hdocs3 Hpre)
        as (_ & _ & _ & _ & HrelB).
      apply (HrelB HB3). }
    destruct (outcome_carried self _ _ _ _ _ _ _ _ _ Hpost Hdocs)
      as (_ & d1 & Hdocs1 & Hid & _); [now apply Hlocal|].
    pose proof HrecA as Htrace.
    apply reconcile_trace in Htrace
      as (_ & _ & posts & patches & created & _ & _ & _ & _ & Hrel').
    destruct (Hrel' HA eq_refl) as (_ & Hts1 & _).
    assert (Hus1 : user_directory rA1 = user_directory rA)
      by (unfold user_directory; now rewrite Husr).
    specialize (IH (pre ++ [d1]) (Spec.tally o stats) rA1 rB1 HA1 HB1 Hsnd).
    rewrite Hus1, <- Hts1 in IH. cbv zeta in IH.
    destruct IH as [IHsame IHfailed].
    { now rewrite Hdocs1, <- app_assoc. }
    { rewrite <- app_assoc. simpl. rewrite map_app in *. simpl in *.
      now rewrite Hid. }
    destruct (full_sync_loop self (user_directory rA) ds (Spec.tally o stats)
                ts1 rA1) as [[stats' ts'] rA'].
    destruct (sync_each self (map document_id ds) rB1) as [oks rB'].
    unfold mret, M_ret. simpl in *.
    split; [exact IHsame|]. rewrite IHfailed.
    destruct o; simpl; lia.
Qed.

End Simulation.

(** X19: on a platform that loses no request and whose documents have
    distinct identifiers, the batch does to the platform what the runs
    for its documents do one after the other, in the order of the
    collection: the documents, their tag lists and the tags end the
    same.  The batch counts as failed exactly the documents whose
    single run reports failure. *)
Theorem full_sync_as_single_runs (self : PaperlessSync) (r : Remote) :
  reliable r ->
  NoDup (map document_id (documents r)) ->
  let batch := full_sync self r in
  let singles := sync_each self (map document_id (documents r)) r in
  same_data (snd batch) (snd singles) /\
  failed (fst batch) = Z.of_nat (length (List.filter negb (fst singles))).
Proof.
  intros Hr Hnodup. cbv zeta.
  destruct (full_sync_reliable self r Hr) as (r3 & Hsame & Hr3 & _ & ->).
  destruct (documents r) as [|d docs] eqn:Hdocs.
  - simpl. split; [now apply same_data_sym|reflexivity].
  - cbv zeta.
    assert (Hus : user_directory r3 = user_directory r)
      by (unfold user_directory; destruct Hsame as (_ & -> & _); reflexivity).
    assert (Hts : tag_directory r3 = tag_directory r)
      by (unfold tag_directory; destruct Hsame as (_ & _ & -> & _); reflexivity).
    rewrite <- Hus, <- Hts.
    assert (Hdocs3 : documents r3 = [] ++ d :: docs)
      by (destruct Hsame as (-> & _); exact Hdocs).
    pose proof (full_sync_loop_as_single_runs self (d :: docs) []
                  (mkStats (Z.of_nat (length (d :: docs))) 0 0 0) r3 r Hr3 Hr
                  (same_data_sym _ _ Hsame) Hdocs3 Hnodup) as H.
    cbv zeta in H.
    set (batch := full_sync_loop self _ (d :: docs) _ _ r3) in *.
    set (singles := sync_each self _ r) in *.
    destruct H as [H1 H2]. split; [exact H1|].
    change (failed (fst (fst batch))
            = Z.of_nat (length (List.filter negb (fst singles)))).
    rewrite H2. simpl. lia.
Qed.

Lemma full_sync_as_single_runs_witness :
  failed (fst (full_sync Demo.client (Demo.platform [])))
  = Z.of_nat (length (List.filter negb
                        (fst (sync_each Demo.client [10; 11; 12]
                                (Demo.platform []))))).
Proof.
  apply (full_sync_as_single_runs Demo.client (Demo.platform [])).
  - constructor.
  - apply (bool_decide_unpack _). reflexivity.
Defined.
